(** * pcan-id: serial number and device id of Peak CAN USB devices

    A shallow embedding of [pcan-id.c] and the properties of its device
    selection and of its request/response protocol.

    The program talks to the outside through libusb, getopt and stdio.  The
    embedding keeps the program's own control flow and data and takes the
    outside as data: the option sequence getopt delivers, the result codes
    and devices of the USB host, and the answers of the opened device to
    bulk transfers.  Every output, and every call that acts on a device or
    ends the library (open, claim interface, reset, bulk transfer, attach
    kernel driver, release interface, close, exit), is recorded as an event,
    in program order; the calls that only read enter through their results.

    Left out, as without effect on what is stated here: the allocation of
    the context, [libusb_set_debug], [libusb_set_auto_detach_kernel_driver]
    (compiled in for newer libusb only), [libusb_free_config_descriptor],
    the text of the help screen, and the rendering of format strings (a
    message keeps its format's arguments).  The counter [i] of the
    enumeration is an [int]; it is taken as unbounded.  The buffer that
    [libusb_get_string_descriptor_ascii] leaves is taken as a string: the
    program ignores the return code of that call, and a failed read, after
    which it prints an uninitialised buffer, is outside the embedding. *)

From Stdlib Require Import Ascii.
From stdpp Require Import base numbers list strings.

Local Open Scope Z_scope.

(** ** Machine integers *)

(** Conversions to [uint8_t] and [uint32_t] wrap around. *)
Definition uint8 (v : Z) : Z := v mod 2 ^ 8.
Definition uint32 (v : Z) : Z := v mod 2 ^ 32.

Definition UCHAR_MAX : Z := 255.
Definition LLONG_MAX : Z := 2 ^ 63 - 1.
Definition LLONG_MIN : Z := - 2 ^ 63.
Definition ERANGE : Z := 34.
Definition LIBUSB_SUCCESS : Z := 0.
Definition USB_TIMEOUT_MS : Z := 2000.

(** The byte order of the host, which decides the object representation of
    a [uint32_t] and what [htole32] and [le32toh] of <endian.h> do. *)
Inductive byte_order := LittleEndian | BigEndian.

(** Byte [k] of [x], counted from the least significant one. *)
Definition octet (k : Z) (x : Z) : Z := Z.land (Z.shiftr x (8 * k)) 0xff.

(** <byteswap.h>: [__bswap_constant_32]. *)
Definition bswap_32 (x : Z) : Z :=
  Z.lor (Z.lor (Z.lor (Z.shiftr (Z.land x 0xff000000) 24)
                      (Z.shiftr (Z.land x 0x00ff0000) 8))
               (Z.shiftl (Z.land x 0x0000ff00) 8))
        (Z.shiftl (Z.land x 0x000000ff) 24).

Definition htole32 (host : byte_order) (x : Z) : Z :=
  match host with LittleEndian => x | BigEndian => bswap_32 x end.

Definition le32toh (host : byte_order) (x : Z) : Z :=
  match host with LittleEndian => x | BigEndian => bswap_32 x end.

(** The four bytes a [uint32_t] object occupies in memory, lowest address
    first: what [memcpy] from [&serial_nr] reads. *)
Definition uint32_bytes (host : byte_order) (x : Z) : list Z :=
  let lsb_first := [octet 0 x; octet 1 x; octet 2 x; octet 3 x] in
  match host with LittleEndian => lsb_first | BigEndian => reverse lsb_first end.

(** The value of a [uint32_t] object whose memory holds [bs]: what
    [memcpy] to [&serial_nr] leaves in the variable. *)
Definition uint32_of_bytes (host : byte_order) (bs : list Z) : Z :=
  let lsb_first := match host with LittleEndian => bs | BigEndian => reverse bs end in
  foldr (fun b acc => Z.lor b (Z.shiftl acc 8)) 0 lsb_first.

(** ** Packets *)

(** [unsigned char pkt[16]]: a list of sixteen bytes, written by index. *)
Definition packet := list Z.

(** [memset(pkt, 0, sizeof(pkt))] *)
Definition memset_pkt : packet := replicate 16 0.

(** [memcpy(&pkt[off], src, length src)] *)
Definition memcpy_to (pkt : packet) (off : nat) (src : list Z) : packet :=
  list_inserts off src pkt.

(** [memcpy(dst, &pkt[off], n)] *)
Definition memcpy_from (pkt : packet) (off n : nat) : list Z :=
  take n (drop off pkt).

(** The buffer [buf] after a transfer into it received the bytes [rx]: the
    bytes received, at most as many as the buffer holds, replace its
    start; the rest keeps what it held. *)
Definition received (buf : packet) (rx : list Z) : packet :=
  list_inserts 0 (take (length buf) (uint8 <$> rx)) buf.

(** ** The device catalog *)

Record pcan_type := { name : string; vendor_id : Z; product_id : Z }.

(** The entries of [pcan_types] before the terminating [{0}]. *)
Definition pcan_types : list pcan_type :=
  [ {| name := "PCAN-USB"; vendor_id := 0x0c72; product_id := 0x000c |} ].

(** ** The USB host *)

(** A device of the system's list, with what libusb reports for it. *)
Record usb_device := {
  idVendor : Z;
  idProduct : Z;
  iManufacturer : Z;
  iProduct : Z;
  bus_number : Z;
  device_address : Z;
  descriptor_result : Z;          (* libusb_get_device_descriptor *)
  open_result : Z;                (* libusb_open *)
  config_descriptor_result : Z;   (* libusb_get_config_descriptor *)
  string_descriptor : Z -> string (* buf after libusb_get_string_descriptor_ascii *)
}.

Record usb_host := {
  init_result : Z;                (* libusb_init *)
  device_list_result : Z;         (* libusb_get_device_list *)
  devices : list usb_device       (* the NULL-terminated list it fills in *)
}.

(** ** What the program does to the outside *)

Inductive stream := stdout | stderr.

(** One constructor per format string of the source, with its arguments. *)
Inductive message :=
  | MsgDeviceListError (r : Z)       (* "error retrieving list of devices: %s\n" *)
  | MsgDescriptorError (r : Z)       (* "failed to get device descriptor: %s" *)
  | MsgListEntry (i vid pid bus addr : Z) (nm : string)
                                     (* "%d: %04x:%04x Bus %03d Device %03d [%s]\n", the name in quotes *)
  | MsgOpenError (r : Z)             (* "error opening device: %s\n" *)
  | MsgHelp                          (* the text of help() *)
  | MsgRangeError                    (* "range error\n" *)
  | MsgNoDigits                      (* "No digits were found\n" *)
  | MsgInvalidArgument (arg : string)(* "invalid argument: %s\n" *)
  | MsgInvalidDeviceId (v lim : Z)   (* "invalid device id: %u < %u\n" *)
  | MsgUnknownOption (c : ascii)     (* "unknown option: %c\n" *)
  | MsgNoAction                      (* "Please specify either -l, -s or -i.\n\n" *)
  | MsgInitError                     (* "error initializing libusb\n" *)
  | MsgNotFound                      (* "error, requested device not found\n" *)
  | MsgConfigDescriptorError         (* "error, get_config_descriptor failed\n" *)
  | MsgString (label s : string)     (* "%20s: %s\n" *)
  | MsgNewline                       (* "\n" *)
  | MsgTransferError (r : Z)         (* "error %s\n", libusb_error_name(r) *)
  | MsgHex (label : string) (v : Z). (* "%20s: 0x%x\n" *)

Inductive event :=
  | Output (fd : stream) (m : message)
  | UsbOpen (d : usb_device) (r : Z)
  | UsbClaimInterface (h : usb_device)
  | UsbResetDevice (h : usb_device)
  | BulkOut (h : usb_device) (endpoint : Z) (data : packet) (r : Z)
  | BulkIn (h : usb_device) (endpoint : Z) (r : Z) (data : packet)
  | UsbAttachKernelDriver (h : usb_device)
  | UsbReleaseInterface (h : usb_device)
  | UsbClose (h : usb_device)
  | UsbExit.

(** How a run ends: a value, a process exit with its status ([exit] or a
    [return] from [main]), or a crash (a null pointer or an uninitialised
    variable is used). *)
Inductive outcome (A : Type) :=
  | Ret (a : A)
  | Exit (status : Z)
  | Crash.
Arguments Ret {A} a.
Arguments Exit {A} status.
Arguments Crash {A}.

(** ** Command line *)

(** What [getopt] returned and the [optarg] it set. *)
Definition option_arg : Type := ascii * string.

Definition zero : ascii := Ascii.ascii_of_nat 0.

(** The locals of [main] that option parsing sets.  [device_id] and
    [serial_nr] start uninitialised. *)
Record options := {
  device_idx : Z;
  device_id : option Z;
  serial_nr : option Z;
  action : ascii
}.

(** The value of a digit or letter in [strtoll]. *)
Definition digit_value (c : ascii) : option Z :=
  let n := Z.of_N (Ascii.N_of_ascii c) in
  if (48 <=? n) && (n <=? 57) then Some (n - 48)
  else if (97 <=? n) && (n <=? 122) then Some (n - 87)
  else if (65 <=? n) && (n <=? 90) then Some (n - 55)
  else None.

(** The digits [strtoll] consumes in [base]: their value and their number. *)
Fixpoint strtoll_digits (base : Z) (s : string) (acc : Z) (n : nat) : Z * nat :=
  match s with
  | EmptyString => (acc, n)
  | String c s' =>
      match digit_value c with
      | Some d => if d <? base then strtoll_digits base s' (acc * base + d) (S n)
                  else (acc, n)
      | None => (acc, n)
      end
  end.

(** [strtoll(arg, &endptr, base)] for an argument without leading white
    space or sign, the only kind [parse_long] passes: the value, the offset
    of [endptr] in [arg], and whether [errno] is set to [ERANGE]. *)
Definition strtoll (arg : string) (base : Z) : Z * nat * bool :=
  let '(prefixed, digits) :=
    match arg with
    | String "0" (String x rest) =>
        if (base =? 16) && (Ascii.eqb x "x" || Ascii.eqb x "X")
        then (true, rest) else (false, arg)
    | _ => (false, arg)
    end in
  let '(v, n) := strtoll_digits base digits 0 0%nat in
  let endptr := if prefixed then (if Nat.eqb n 0 then 1 else 2 + n)%nat else n in
  if LLONG_MAX <? v then (LLONG_MAX, endptr, true) else (v, endptr, false).

Section Program.

(** The opened device answers bulk transfers from a state of its own.  An
    OUT transfer hands it the packet and yields a result code; an IN
    transfer yields a result code and the bytes received. *)
Context {device_state : Type}.
Variable bulk_out : usb_device -> Z -> device_state -> packet -> device_state * Z.
Variable bulk_in : usb_device -> Z -> device_state -> device_state * (Z * list Z).
Variable host_order : byte_order.

Record world := { errno : Z; usb : device_state }.

(** A computation reads and updates the world and appends events. *)
Definition M (A : Type) : Type := world -> outcome A * world * list event.

Definition ret {A} (a : A) : M A := fun w => (Ret a, w, []).

Definition bind {A B} (m : M A) (k : A -> M B) : M B :=
  fun w =>
    match m w with
    | (Ret a, w1, t1) => let '(o, w2, t2) := k a w1 in (o, w2, t1 ++ t2)
    | (Exit c, w1, t1) => (Exit c, w1, t1)
    | (Crash, w1, t1) => (Crash, w1, t1)
    end.

Notation "'let*' x := m 'in' k" := (bind m (fun x => k))
  (at level 10, x pattern, m at level 100, k at level 200).
Notation "m ;; k" := (bind m (fun _ => k))
  (at level 100, right associativity).

Definition exit {A} (status : Z) : M A := fun w => (Exit status, w, []).
Definition crash {A} : M A := fun w => (Crash, w, []).
Definition emit (e : event) : M unit := fun w => (Ret tt, w, [e]).
Definition fprintf (fd : stream) (m : message) : M unit := emit (Output fd m).
Definition printf (m : message) : M unit := fprintf stdout m.
Definition when (b : bool) (m : M unit) : M unit := if b then m else ret tt.

Definition events {A} (r : outcome A * world * list event) : list event := r.2.
Definition result {A} (r : outcome A * world * list event) : outcome A := r.1.1.

(** *** libusb *)

Definition libusb_open (d : usb_device) : M Z :=
  emit (UsbOpen d (open_result d));; ret (open_result d).

(** Bit 7 of the endpoint address is the direction.  An IN transfer
    overwrites the start of the buffer with the bytes received, at most
    the length of the buffer. *)
Definition libusb_bulk_transfer (h : usb_device) (endpoint : Z) (data : packet)
  : M (Z * packet) :=
  fun w =>
    if Z.testbit endpoint 7 then
      let '(s, (r, rx)) := bulk_in h endpoint (usb w) in
      let data' := received data rx in
      (Ret (r, data'), {| errno := errno w; usb := s |}, [BulkIn h endpoint r data'])
    else
      let '(s, r) := bulk_out h endpoint (usb w) data in
      (Ret (r, data), {| errno := errno w; usb := s |}, [BulkOut h endpoint data r]).

(** *** browse_devices *)

(** The scan of [pcan_types] for the descriptor just read. *)
Definition supported (d : usb_device) : option pcan_type :=
  List.find (fun p => (vendor_id p =? idVendor d) && (product_id p =? idProduct d))
            pcan_types.

(** The fields of [struct pcan_ctx] the enumeration fills in. *)
Record pcan_ctx := {
  device : option usb_device;
  dev_handle : option usb_device;
  ctx_pcan_type : option pcan_type
}.

(** The [while (devices[c])] loop; [i] counts the supported devices seen. *)
Fixpoint browse_loop (devs : list usb_device) (device_idx : Z) (list_devices : bool)
    (i : Z) (ctx : pcan_ctx) : M pcan_ctx :=
  match devs with
  | [] => ret ctx
  | d :: rest =>
      if descriptor_result d <? 0 then
        fprintf stderr (MsgDescriptorError (descriptor_result d));;
        ret ctx
      else
        match supported d with
        | Some p =>
            when list_devices
              (printf (MsgListEntry i (idVendor d) (idProduct d)
                         (bus_number d) (device_address d) (name p)));;
            let* ctx' :=
              (if i =? device_idx then
                 let* r := libusb_open d in
                 when (r <? 0) (printf (MsgOpenError r));;
                 ret {| device := Some d;
                        dev_handle := if r =? 0 then Some d else dev_handle ctx;
                        ctx_pcan_type := Some p |}
               else ret ctx) in
            browse_loop rest device_idx list_devices (i + 1) ctx'
        | None => browse_loop rest device_idx list_devices i ctx
        end
  end.

Definition browse_devices (host : usb_host) (device_idx : Z) (list_devices : bool)
  : M (Z * pcan_ctx) :=
  let empty := {| device := None; dev_handle := None; ctx_pcan_type := None |} in
  if device_list_result host <? 0 then
    fprintf stderr (MsgDeviceListError (device_list_result host));;
    ret (1, empty)
  else
    let* ctx := browse_loop (devices host) device_idx list_devices 0 empty in
    ret (0, ctx).

(** *** parse_long *)

Definition help (fd : stream) : M unit := fprintf fd MsgHelp.

(** [Some v]: returns 0 with [*value = v]; [None]: returns 1. *)
Definition parse_long (arg : string) : M (option Z) :=
  let arg0 := match arg with String c _ => c | EmptyString => zero end in
  let arg1 := match arg with String _ (String c _) => c | _ => zero end in
  if (Ascii.leb "0" arg0) && (Ascii.leb arg0 "9") then
    fun w =>
      let '(val, endptr, range) :=
        if Ascii.eqb arg0 "0" && Ascii.eqb arg1 "x" then strtoll arg 16
        else strtoll arg 10 in
      let e := if range then ERANGE else errno w in
      let w' := {| errno := e; usb := usb w |} in
      if (e =? ERANGE) && ((val =? LLONG_MAX) || (val =? LLONG_MIN)) then
        (Ret None, w', [Output stderr MsgRangeError])
      else if negb (e =? 0) && (val =? 0) then
        (Ret None, w', [Output stderr MsgNoDigits])
      else if Nat.eqb endptr 0 then
        (Ret None, w', [Output stderr MsgNoDigits])
      else
        (Ret (Some (uint32 val)), w', [])
  else
    fprintf stderr (MsgInvalidArgument arg);;
    ret None.

(** *** main *)

(** The [while (getopt ...)] loop with its [switch]. *)
Fixpoint parse_options (opts : list option_arg) (st : options) : M options :=
  match opts with
  | [] => ret st
  | (opt, optarg) :: rest =>
      if Ascii.eqb opt "h" then
        help stdout;; exit 0
      else if Ascii.eqb opt "d" then
        let* v := parse_long optarg in
        match v with
        | None => exit 1
        | Some v =>
            parse_options rest
              {| device_idx := v; device_id := device_id st;
                 serial_nr := serial_nr st; action := action st |}
        end
      else if Ascii.eqb opt "s" then
        let* v := parse_long optarg in
        match v with
        | None => exit 1
        | Some v =>
            parse_options rest
              {| device_idx := device_idx st; device_id := device_id st;
                 serial_nr := Some v; action := "s" |}
        end
      else if Ascii.eqb opt "i" then
        let* v := parse_long optarg in
        match v with
        | None => exit 1
        | Some v =>
            if UCHAR_MAX <=? v then
              fprintf stderr (MsgInvalidDeviceId v UCHAR_MAX);; exit 1
            else
              parse_options rest
                {| device_idx := device_idx st; device_id := Some (uint8 v);
                   serial_nr := serial_nr st; action := "i" |}
        end
      else if Ascii.eqb opt "l" then
        parse_options rest
          {| device_idx := device_idx st; device_id := device_id st;
             serial_nr := serial_nr st; action := "l" |}
      else if Ascii.eqb opt "q" then
        parse_options rest
          {| device_idx := device_idx st; device_id := device_id st;
             serial_nr := serial_nr st; action := "q" |}
      else
        fprintf stderr (MsgUnknownOption opt);; help stderr;; exit 1
  end.

Definition initial_options : options :=
  {| device_idx := 0; device_id := None; serial_nr := None; action := zero |}.

(** The packet of the [action == 'i'] block. *)
Definition set_device_id_pkt (id : Z) : packet :=
  let pkt := memset_pkt in
  let pkt := <[0%nat := 4]> pkt in
  let pkt := <[1%nat := 2]> pkt in
  let pkt := <[2%nat := id]> pkt in
  pkt.

(** The packet of the [action == 's'] block. *)
Definition set_serial_nr_pkt (sn : Z) : packet :=
  let pkt := memset_pkt in
  let pkt := <[0%nat := 6]> pkt in
  let pkt := <[1%nat := 2]> pkt in
  let sn := htole32 host_order sn in
  let pkt := memcpy_to pkt 2 (uint32_bytes host_order sn) in
  pkt.

(** The two request packets of the [action == 'q'] block. *)
Definition get_device_id_pkt : packet :=
  let pkt := memset_pkt in
  let pkt := <[0%nat := 4]> pkt in
  let pkt := <[1%nat := 1]> pkt in
  pkt.

Definition get_serial_nr_pkt : packet :=
  let pkt := memset_pkt in
  let pkt := <[0%nat := 6]> pkt in
  let pkt := <[1%nat := 1]> pkt in
  pkt.

(** What the [action == 'q'] block reads out of [pkt] after a response. *)
Definition device_id_of_pkt (pkt : packet) : Z := pkt !!! 2%nat.

Definition serial_nr_of_pkt (pkt : packet) : Z :=
  let sn := uint32_of_bytes host_order (memcpy_from pkt 2 4) in
  le32toh host_order sn.

(** [if (r != LIBUSB_SUCCESS) printf("error %s\n", libusb_error_name(r));] *)
Definition report (r : Z) : M unit :=
  when (negb (r =? LIBUSB_SUCCESS)) (printf (MsgTransferError r)).

(** [if (action == 'i') { ... }] *)
Definition set_device_id (h : usb_device) (st : options) : M unit :=
  match device_id st with
  | None => crash
  | Some id =>
      let* (r, _) := libusb_bulk_transfer h 0x1 (set_device_id_pkt id) in
      report r
  end.

(** [if (action == 's') { ... }] *)
Definition set_serial_nr (h : usb_device) (st : options) : M unit :=
  match serial_nr st with
  | None => crash
  | Some sn =>
      let* (r, _) := libusb_bulk_transfer h 0x1 (set_serial_nr_pkt sn) in
      report r
  end.

(** [if (action == 'q') { ... }] *)
Definition query (h : usb_device) : M unit :=
  (* request device id: send request, get response *)
  let* (r, pkt) := libusb_bulk_transfer h 0x1 get_device_id_pkt in
  report r;;
  let* (r, pkt) := libusb_bulk_transfer h 0x81 pkt in
  report r;;
  printf (MsgHex "device_id" (device_id_of_pkt pkt));;
  (* request serial number: send request, get response *)
  let* (r, pkt) := libusb_bulk_transfer h 0x1 get_serial_nr_pkt in
  report r;;
  let* (r, pkt) := libusb_bulk_transfer h 0x81 pkt in
  report r;;
  printf (MsgHex "serial_number" (serial_nr_of_pkt pkt)).

(** The three [if (action == ...)] blocks of [main], in their order. *)
Definition perform (h : usb_device) (st : options) : M unit :=
  when (Ascii.eqb (action st) "i") (set_device_id h st);;
  when (Ascii.eqb (action st) "s") (set_serial_nr h st);;
  when (Ascii.eqb (action st) "q") (query h).

(** From [libusb_claim_interface] to the blank line before the action. *)
Definition prepare (d h : usb_device) : M unit :=
  emit (UsbClaimInterface h);;
  emit (UsbResetDevice h);;
  (if descriptor_result d <? 0 then
     fprintf stderr (MsgDescriptorError (descriptor_result d));; exit 1
   else ret tt);;
  (if negb (config_descriptor_result d =? 0) then
     fprintf stderr MsgConfigDescriptorError;; exit 1
   else ret tt);;
  when (negb (iManufacturer d =? 0))
    (printf (MsgString "iManufacturer" (string_descriptor h (iManufacturer d))));;
  when (negb (iProduct d =? 0))
    (printf (MsgString "iProduct" (string_descriptor h (iProduct d))));;
  printf MsgNewline.

(** The calls after the action; falling off the end of [main] returns 0. *)
Definition cleanup (h : usb_device) : M Z :=
  emit (UsbAttachKernelDriver h);;
  emit (UsbReleaseInterface h);;
  emit (UsbClose h);;     (* guarded by [if (ctx->dev_handle)], which holds here *)
  emit UsbExit;;
  ret 0.

Definition main (host : usb_host) (opts : list option_arg) : M Z :=
  let* st := parse_options opts initial_options in
  if Ascii.eqb (action st) zero then
    fprintf stderr MsgNoAction;; help stderr;; exit 1
  else
    if negb (init_result host =? 0) then
      fprintf stderr MsgInitError;; exit 1
    else
      let* (r, ctx) := browse_devices host (uint8 (device_idx st))
                          (Ascii.eqb (action st) "l") in
      if negb (r =? 0) then exit r
      else
        match dev_handle ctx with
        | None => fprintf stderr MsgNotFound;; exit 1
        | Some h =>
            if Ascii.eqb (action st) "l" then exit 0
            else
              match device ctx with
              | None => crash
              | Some d =>
                  prepare d h;;
                  perform h st;;
                  cleanup h
              end
        end.

(** A run of the program from its start: [errno] is zero. *)
Definition run (host : usb_host) (opts : list option_arg) (s : device_state)
  : outcome Z * world * list event :=
  main host opts {| errno := 0; usb := s |}.

End Program.

(** ** Vocabulary of the statements *)

Definition is_byte (b : Z) : Prop := 0 <= b < 256.

(** Four bytes read as a little-endian number. *)
Definition le32 (b0 b1 b2 b3 : Z) : Z :=
  b0 + 2 ^ 8 * b1 + 2 ^ 16 * b2 + 2 ^ 24 * b3.

(** The devices the enumeration loop reaches: it leaves the list at the
    first device whose descriptor cannot be read. *)
Fixpoint enumerated (devs : list usb_device) : list usb_device :=
  match devs with
  | [] => []
  | d :: rest => if descriptor_result d <? 0 then [] else d :: enumerated rest
  end.

(** The catalog matches among them, each with its catalog entry, in
    enumeration order. *)
Definition matches (devs : list usb_device) : list (usb_device * pcan_type) :=
  omap (fun d => match supported d with Some p => Some (d, p) | None => None end)
       (enumerated devs).

(** The line of the listing for the match [m] at index [i]. *)
Definition list_entry (i : Z) (m : usb_device * pcan_type) : message :=
  MsgListEntry i (idVendor m.1) (idProduct m.1) (bus_number m.1)
               (device_address m.1) (name m.2).

(** Projections of an event sequence. *)
Definition is_transfer (e : event) : bool :=
  match e with BulkOut _ _ _ _ | BulkIn _ _ _ _ => true | _ => false end.

Definition transfers (t : list event) : list event := List.filter is_transfer t.

Definition sent (t : list event) : list packet :=
  omap (fun e => match e with BulkOut _ _ pkt _ => Some pkt | _ => None end) t.

Definition opened (t : list event) : list usb_device :=
  omap (fun e => match e with UsbOpen d _ => Some d | _ => None end) t.

Definition printed (fd : stream) (t : list event) : list message :=
  omap (fun e => match e, fd with
                 | Output stdout m, stdout | Output stderr m, stderr => Some m
                 | _, _ => None
                 end) t.

Definition listing (t : list event) : list message :=
  List.filter (fun m => match m with MsgListEntry _ _ _ _ _ _ => true | _ => false end)
              (printed stdout t).

Definition values (t : list event) : list message :=
  List.filter (fun m => match m with MsgHex _ _ => true | _ => false end)
              (printed stdout t).

Definition errors (t : list event) : list message :=
  List.filter (fun m => match m with MsgTransferError _ => true | _ => false end)
              (printed stdout t).

(** The result codes of the bulk transfers, in order. *)
Definition codes (t : list event) : list Z :=
  omap (fun e => match e with
                 | BulkOut _ _ _ r | BulkIn _ _ r _ => Some r
                 | _ => None
                 end) t.

(** What [report] prints for a result code. *)
Definition reported (r : Z) : list event :=
  if r =? LIBUSB_SUCCESS then [] else [Output stdout (MsgTransferError r)].

(** The events of [cleanup]. *)
Definition cleanup_events (h : usb_device) : list event :=
  [UsbAttachKernelDriver h; UsbReleaseInterface h; UsbClose h; UsbExit].

(** An event sequence without device or protocol activity. *)
Definition quiet (t : list event) : Prop :=
  transfers t = [] /\ sent t = [] /\ codes t = [] /\ opened t = [] /\
  values t = [] /\ errors t = [] /\ listing t = [].

(** The match at index [idx] when the count starts from [i]. *)
Definition pick (ms : list (usb_device * pcan_type)) (i idx : Z)
  : option (usb_device * pcan_type) :=
  if idx <? i then None else ms !! Z.to_nat (idx - i).

(** What option parsing guarantees about the locals it sets. *)
Definition options_ok (st : options) : Prop :=
  0 <= device_idx st < 2 ^ 32 /\
  (action st = "i"%char -> exists id, device_id st = Some id /\ 0 <= id < 255) /\
  (action st = "s"%char -> exists sn, serial_nr st = Some sn /\ 0 <= sn < 2 ^ 32).

(** The command packets of the protocol: byte 0 is the object (4: device
    id, 6: serial number), byte 1 the operation (1: get, 2: set), then the
    payload, then zeros up to sixteen bytes. *)
Inductive command_packet : packet -> Prop :=
  | cmd_set_device_id id :
      is_byte id -> command_packet ([4; 2; id] ++ replicate 13 0)
  | cmd_set_serial_nr b0 b1 b2 b3 :
      is_byte b0 -> is_byte b1 -> is_byte b2 -> is_byte b3 ->
      command_packet ([6; 2; b0; b1; b2; b3] ++ replicate 10 0)
  | cmd_get_device_id : command_packet ([4; 1] ++ replicate 14 0)
  | cmd_get_serial_nr : command_packet ([6; 1] ++ replicate 14 0).

(** The (vendor id, product id) pair of [d] appears in the catalog. *)
Definition in_catalog (d : usb_device) : bool :=
  existsb (fun p => (vendor_id p =? idVendor d) && (product_id p =? idProduct d))
          pcan_types.

(** Option parsing, from the start of the program, ends with the locals [st]. *)
Definition parsed {device_state : Type} (opts : list option_arg) (s : device_state)
    (st : options) : Prop :=
  result (parse_options opts initial_options {| errno := 0; usb := s |}) = Ret st.

(** The environment lets the program reach its action on device [d]:
    libusb initialises, the device list is delivered, [d] is the catalog
    match at the index the enumeration is given, and it opens and yields
    its configuration descriptor. *)
Definition selects (host : usb_host) (idx : Z) (d : usb_device) : Prop :=
  init_result host = 0 /\ 0 <= device_list_result host /\
  (fst <$> (matches (devices host) !! Z.to_nat idx)) = Some d /\
  open_result d = 0 /\ config_descriptor_result d = 0.

(** ** A simulated host, for concrete runs *)

Definition pcan_usb (bus addr : Z) : usb_device :=
  {| idVendor := 0x0c72; idProduct := 0x000c; iManufacturer := 1; iProduct := 2;
     bus_number := bus; device_address := addr;
     descriptor_result := 0; open_result := 0; config_descriptor_result := 0;
     string_descriptor := fun i => if i =? 1 then "PEAK-System Technik GmbH" else "PCAN-USB" |}.

Definition usb_hub : usb_device :=
  {| idVendor := 0x1d6b; idProduct := 0x0002; iManufacturer := 3; iProduct := 2;
     bus_number := 1; device_address := 1;
     descriptor_result := 0; open_result := 0; config_descriptor_result := 0;
     string_descriptor := fun _ => "hub" |}.

(** A device that stores a device id and a serial number and answers the
    four commands. *)
Record sim_state := { sim_id : Z; sim_serial : list Z; sim_reply : list Z }.

Definition sim_out (h : usb_device) (ep : Z) (s : sim_state) (p : packet) : sim_state * Z :=
  match p with
  | 4 :: 2 :: id :: _ =>
      ({| sim_id := id; sim_serial := sim_serial s; sim_reply := sim_reply s |}, 0)
  | 6 :: 2 :: b0 :: b1 :: b2 :: b3 :: _ =>
      ({| sim_id := sim_id s; sim_serial := [b0; b1; b2; b3]; sim_reply := sim_reply s |}, 0)
  | 4 :: 1 :: _ =>
      ({| sim_id := sim_id s; sim_serial := sim_serial s;
          sim_reply := [4; 1; sim_id s] ++ replicate 13 0 |}, 0)
  | 6 :: 1 :: _ =>
      ({| sim_id := sim_id s; sim_serial := sim_serial s;
          sim_reply := [6; 1] ++ sim_serial s ++ replicate 10 0 |}, 0)
  | _ => (s, -1)
  end.

Definition sim_in (h : usb_device) (ep : Z) (s : sim_state) : sim_state * (Z * list Z) :=
  (s, (0, sim_reply s)).

Definition sim_start : sim_state :=
  {| sim_id := 0x2a; sim_serial := [0x04; 0x03; 0x02; 0x01]; sim_reply := [] |}.

(** A device that fails every transfer and delivers nothing. *)
Definition dead_out (h : usb_device) (ep : Z) (s : unit) (p : packet) : unit * Z := (s, -7).
Definition dead_in (h : usb_device) (ep : Z) (s : unit) : unit * (Z * list Z) := (s, (-7, [])).

Definition one_pcan : usb_host :=
  {| init_result := 0; device_list_result := 2; devices := [usb_hub; pcan_usb 1 5] |}.

Definition two_pcan : usb_host :=
  {| init_result := 0; device_list_result := 4;
     devices := [pcan_usb 1 5; usb_hub; pcan_usb 2 7; usb_hub] |}.

Definition no_pcan : usb_host :=
  {| init_result := 0; device_list_result := 1; devices := [usb_hub] |}.

Definition opt (c : ascii) (arg : string) : option_arg := (c, arg).

(** The world at the start of a program: [errno] is zero. *)
Definition start {device_state : Type} (s : device_state) : world :=
  {| errno := 0; usb := s |}.

(** The locals after parsing [-q] and after parsing [-i 0x2b]. *)
Definition query_options : options :=
  {| device_idx := 0; device_id := None; serial_nr := None; action := "q" |}.

Definition set_id_options : options :=
  {| device_idx := 0; device_id := Some 0x2b; serial_nr := None; action := "i" |}.

(** ** Vocabulary of the further properties *)

(** The character of a decimal digit, and of a hexadecimal digit in lower
    or upper case. *)
Definition digit_char (d : Z) : ascii := Ascii.ascii_of_N (Z.to_N (48 + d)).

Definition hex_char (h : bool * Z) : ascii :=
  if h.2 <? 10 then digit_char h.2
  else Ascii.ascii_of_N (Z.to_N ((if h.1 then 55 else 87) + h.2)).

(** The numeral with the digits [ds], most significant first, followed by
    the text [rest]. *)
Definition numeral {A} (char : A -> ascii) (ds : list A) (rest : string) : string :=
  foldr (fun d s => String (char d) s) rest ds.

(** The number the digits [ds] denote in [base]. *)
Definition digits_value (base : Z) (ds : list Z) : Z :=
  foldl (fun acc d => acc * base + d) 0 ds.

(** [rest] does not continue a numeral in [base]. *)
Definition stops (base : Z) (rest : string) : Prop :=
  match rest with
  | EmptyString => True
  | String c _ => match digit_value c with Some d => base <= d | None => True end
  end.

(** The option characters that choose an action. *)
Definition is_action (c : ascii) : bool :=
  Ascii.eqb c "s" || Ascii.eqb c "i" || Ascii.eqb c "l" || Ascii.eqb c "q".

(** The last action option of the command line, [zero] without one. *)
Definition last_action (opts : list option_arg) : ascii :=
  foldl (fun a o => if is_action o.1 then o.1 else a) zero opts.

(** The calls into libusb that the events record: open, claim interface,
    reset, bulk transfer, attach kernel driver, release interface, close and
    exit.  The calls that only read ([libusb_init], the device list, the
    descriptors, bus number and address, the strings) are no events. *)
Definition usb_calls (t : list event) : list event :=
  List.filter (fun e => match e with Output _ _ => false | _ => true end) t.

(** Everything in [t] is printed to standard error. *)
Definition on_stderr (t : list event) : Prop :=
  Forall (fun e => exists m, e = Output stderr m) t.

(** The transfer [e], if it is one, is on device [h]: outgoing on endpoint
    0x01, incoming on endpoint 0x81. *)
Definition on_endpoints (h : usb_device) (e : event) : Prop :=
  match e with
  | BulkOut h' ep _ _ => h' = h /\ ep = 0x01
  | BulkIn h' ep _ _ => h' = h /\ ep = 0x81
  | _ => True
  end.

(** The lines "error opening device" among the events. *)
Definition open_errors (t : list event) : list message :=
  List.filter (fun m => match m with MsgOpenError _ => true | _ => false end)
              (printed stdout t).

(** The [libusb_open] call on a match, as an event. *)
Definition open_call (m : usb_device * pcan_type) : event :=
  UsbOpen m.1 (open_result m.1).

(** The handles closed among the events. *)
Definition closed (t : list event) : list usb_device :=
  omap (fun e => match e with UsbClose h => Some h | _ => None end) t.

(** What [parse_long] makes of a numeral of value [v]: the value as a
    32-bit number, or the range error above [LLONG_MAX]. *)
Definition numeral_result {device_state : Type} (v : Z) (w : @world device_state)
  : outcome (option Z) * world * list event :=
  if v <=? LLONG_MAX
  then (Ret (Some (v mod 2 ^ 32)), w, [])
  else (Ret None, {| errno := ERANGE; usb := usb w |}, [Output stderr MsgRangeError]).

(** [arg] starts with a decimal digit. *)
Definition starts_with_digit (arg : string) : Prop :=
  exists d r, 0 <= d < 10 /\ arg = String (digit_char d) r.

(** The byte the query reads at offset [k] of a response of bytes [rx]:
    its byte [k] as an 8-bit value, zero when the response is shorter. *)
Definition response_byte (rx : list Z) (k : nat) : Z :=
  match rx !! k with Some b => uint8 b | None => 0 end.

(** The events other than the lines of the listing. *)
Definition without_listing (t : list event) : list event :=
  List.filter (fun e => match e with
                        | Output stdout (MsgListEntry _ _ _ _ _ _) => false
                        | _ => true
                        end) t.

(** The lines printed before the action: the manufacturer and the product
    string of the device, each if its descriptor index is not zero, and a
    blank line. *)
Definition descriptor_strings (d : usb_device) : list message :=
  (if iManufacturer d =? 0 then []
   else [MsgString "iManufacturer" (string_descriptor d (iManufacturer d))]) ++
  (if iProduct d =? 0 then []
   else [MsgString "iProduct" (string_descriptor d (iProduct d))]) ++
  [MsgNewline].

(** ** Hosts that fail, for concrete runs *)

(** A PCAN-USB that does not open ([LIBUSB_ERROR_ACCESS]), one without a
    configuration descriptor ([LIBUSB_ERROR_NOT_FOUND]), and a device whose
    descriptor cannot be read ([LIBUSB_ERROR_IO]). *)
Definition busy_pcan : usb_device :=
  {| idVendor := 0x0c72; idProduct := 0x000c; iManufacturer := 1; iProduct := 2;
     bus_number := 1; device_address := 5;
     descriptor_result := 0; open_result := -3; config_descriptor_result := 0;
     string_descriptor := fun _ => "PCAN-USB" |}.

Definition unconfigured_pcan : usb_device :=
  {| idVendor := 0x0c72; idProduct := 0x000c; iManufacturer := 1; iProduct := 2;
     bus_number := 1; device_address := 5;
     descriptor_result := 0; open_result := 0; config_descriptor_result := -5;
     string_descriptor := fun _ => "PCAN-USB" |}.

Definition unreadable_device : usb_device :=
  {| idVendor := 0; idProduct := 0; iManufacturer := 0; iProduct := 0;
     bus_number := 1; device_address := 6;
     descriptor_result := -1; open_result := 0; config_descriptor_result := 0;
     string_descriptor := fun _ => "?" |}.

Definition busy_host : usb_host :=
  {| init_result := 0; device_list_result := 2; devices := [usb_hub; busy_pcan] |}.

Definition unconfigured_host : usb_host :=
  {| init_result := 0; device_list_result := 2; devices := [usb_hub; unconfigured_pcan] |}.

Definition unreadable_host : usb_host :=
  {| init_result := 0; device_list_result := 3;
     devices := [pcan_usb 1 5; unreadable_device; pcan_usb 2 7] |}.

(** A host on which libusb does not initialise ([LIBUSB_ERROR_OTHER]). *)
Definition no_libusb : usb_host :=
  {| init_result := -99; device_list_result := 0; devices := [] |}.

(** The catalog entry of the PCAN-USB. *)
Definition pcan_usb_type : pcan_type :=
  {| name := "PCAN-USB"; vendor_id := 0x0c72; product_id := 0x000c |}.

(** * Properties *)

(** ** Bytes and byte order *)

Lemma testbit_mask8 s i : 0 <= s -> 0 <= i ->
  Z.testbit (Z.shiftl 0xff s) i = (s <=? i) && (i <? s + 8).
Proof.
  intros Hs Hi. rewrite Z.shiftl_spec by lia.
  destruct (Z.leb_spec s i).
  - change 0xff with (Z.ones 8). rewrite Z.testbit_ones_nonneg by lia.
    simpl. destruct (Z.ltb_spec (i - s) 8), (Z.ltb_spec i (s + 8)); auto; lia.
  - rewrite Z.testbit_neg_r by lia. reflexivity.
Qed.

Lemma octet_spec k x n : 0 <= k -> 0 <= n ->
  Z.testbit (octet k x) n = Z.testbit x (n + 8 * k) && (n <? 8).
Proof.
  intros Hk Hn. unfold octet. rewrite Z.land_spec, Z.shiftr_spec by lia.
  f_equal. change 0xff with (Z.ones 8). apply Z.testbit_ones_nonneg; lia.
Qed.

Lemma octet_mod k x : 0 <= k -> octet k x = (x / 2 ^ (8 * k)) mod 256.
Proof.
  intros Hk. unfold octet. rewrite Z.shiftr_div_pow2 by lia.
  change 0xff with (Z.ones 8). rewrite Z.land_ones by lia. reflexivity.
Qed.

Lemma octet_is_byte k x : 0 <= k -> is_byte (octet k x).
Proof. intros Hk. rewrite octet_mod by done. unfold is_byte. apply Z.mod_pos_bound. lia. Qed.

Lemma bswap_32_spec x n : 0 <= n ->
  Z.testbit (bswap_32 x) n =
    if n <? 8 then Z.testbit x (n + 24)
    else if n <? 16 then Z.testbit x (n + 8)
    else if n <? 24 then Z.testbit x (n - 8)
    else if n <? 32 then Z.testbit x (n - 24) else false.
Proof.
  intros Hn. unfold bswap_32.
  change 0xff000000 with (Z.shiftl 0xff 24).
  change 0x00ff0000 with (Z.shiftl 0xff 16).
  change 0x0000ff00 with (Z.shiftl 0xff 8).
  change 0x000000ff with (Z.shiftl 0xff 0).
  rewrite !Z.lor_spec, !Z.shiftr_spec, !Z.shiftl_spec, !Z.land_spec by lia.
  destruct (Z.ltb_spec n 8); [|destruct (Z.ltb_spec n 16); [|destruct (Z.ltb_spec n 24); [| destruct (Z.ltb_spec n 32)]]].
  all: rewrite ?(Z.testbit_neg_r _ (n - 8)), ?(Z.testbit_neg_r _ (n - 24)) by lia.
  all: rewrite ?testbit_mask8 by lia.
  all: repeat match goal with |- context [?a <=? ?b] => destruct (Z.leb_spec a b); try lia end.
  all: repeat match goal with |- context [?a <? ?b] => destruct (Z.ltb_spec a b); try lia end.
  all: simpl; rewrite ?andb_true_r, ?andb_false_r, ?orb_false_r; simpl; try reflexivity.
Qed.

(** Swapping the bytes of a word reverses their order. *)
Lemma octet_bswap_32 k x : 0 <= k < 4 -> octet k (bswap_32 x) = octet (3 - k) x.
Proof.
  intros Hk. apply Z.bits_inj'. intros n Hn.
  rewrite !octet_spec by lia.
  destruct (Z.ltb_spec n 8); rewrite ?andb_false_r, ?andb_true_r; [|done].
  rewrite bswap_32_spec by lia.
  assert (k = 0 \/ k = 1 \/ k = 2 \/ k = 3) as [-> | [-> | [-> | ->]]] by lia; simpl.
  all: repeat match goal with |- context [?a <? ?b] => destruct (Z.ltb_spec a b); try lia end.
  all: f_equal; lia.
Qed.

(** The bytes stored for [htole32 x] are the bytes of [x], least
    significant first, on either host. *)
Lemma uint32_bytes_htole32 host x :
  uint32_bytes host (htole32 host x) = [octet 0 x; octet 1 x; octet 2 x; octet 3 x].
Proof.
  destruct host; [done|]. unfold uint32_bytes, htole32.
  rewrite !octet_bswap_32 by lia. reflexivity.
Qed.

Lemma lor_shiftl_byte b acc : is_byte b -> Z.lor b (Z.shiftl acc 8) = b + 256 * acc.
Proof.
  intros Hb. pose proof (Z.add_lor_land b (Z.shiftl acc 8)) as Hadd.
  rewrite Z.shiftl_mul_pow2 in * by lia.
  assert (Z.land b (acc * 2 ^ 8) = 0) as Hland; [|lia].
  apply Z.bits_inj'. intros n Hn. rewrite Z.land_spec, Z.bits_0.
  destruct (Z.ltb_spec n 8).
  - rewrite Z.mul_pow2_bits_low by lia. apply andb_false_r.
  - assert (Z.testbit b n = false) as ->; [|done].
    destruct (Z.eq_dec b 0) as [->|]; [apply Z.bits_0|].
    apply Z.bits_above_log2; [unfold is_byte in Hb; lia|].
    apply Z.log2_lt_pow2; [unfold is_byte in Hb; lia|].
    apply Z.lt_le_trans with (2 ^ 8); [unfold is_byte in Hb; lia|].
    apply Z.pow_le_mono_r; lia.
Qed.

Lemma le32_octets x : 0 <= x < 2 ^ 32 -> le32 (octet 0 x) (octet 1 x) (octet 2 x) (octet 3 x) = x.
Proof.
  intros Hx. unfold le32. rewrite !octet_mod by lia.
  change (8 * 0) with 0. change (8 * 1) with 8. change (8 * 2) with 16. change (8 * 3) with 24.
  change (2 ^ 0) with 1. rewrite Z.div_1_r.
  pose proof (Z.div_mod x 256 ltac:(lia)).
  pose proof (Z.div_mod (x / 256) 256 ltac:(lia)).
  pose proof (Z.div_mod (x / 256 / 256) 256 ltac:(lia)).
  rewrite !Z.div_div in * by lia.
  change (2 ^ 8) with 256. change (2 ^ 16) with (256 * 256). change (2 ^ 24) with (256 * 256 * 256).
  change (256 * 256) with 65536 in *. change (65536 * 256) with 16777216 in *.
  assert (x / 16777216 < 256) by (apply Z.div_lt_upper_bound; lia).
  assert (0 <= x / 16777216) by (apply Z.div_pos; lia).
  rewrite (Z.mod_small (x / 16777216) 256) by lia. lia.
Qed.

Lemma le32_bounds b0 b1 b2 b3 :
  is_byte b0 -> is_byte b1 -> is_byte b2 -> is_byte b3 -> 0 <= le32 b0 b1 b2 b3 < 2 ^ 32.
Proof. unfold is_byte, le32. lia. Qed.

Lemma octet_le32 b0 b1 b2 b3 :
  is_byte b0 -> is_byte b1 -> is_byte b2 -> is_byte b3 ->
  octet 0 (le32 b0 b1 b2 b3) = b0 /\ octet 1 (le32 b0 b1 b2 b3) = b1 /\
  octet 2 (le32 b0 b1 b2 b3) = b2 /\ octet 3 (le32 b0 b1 b2 b3) = b3.
Proof.
  unfold is_byte, le32. intros. rewrite !octet_mod by lia.
  change (8 * 0) with 0. change (8 * 1) with 8. change (8 * 2) with 16. change (8 * 3) with 24.
  change (2 ^ 0) with 1. change (2 ^ 8) with 256. change (2 ^ 16) with 65536. change (2 ^ 24) with 16777216.
  repeat split.
  - rewrite Z.div_1_r. symmetry. apply (Z.mod_unique _ _ (b1 + 256 * b2 + 65536 * b3)); lia.
  - symmetry. apply (Z.mod_unique _ _ (b2 + 256 * b3)); [lia|].
    symmetry. apply (Z.div_unique _ _ _ b0); lia.
  - symmetry. apply (Z.mod_unique _ _ b3); [lia|].
    symmetry. apply (Z.div_unique _ _ _ (b0 + 256 * b1)); lia.
  - symmetry. apply (Z.mod_unique _ _ 0); [lia|].
    symmetry. apply (Z.div_unique _ _ _ (b0 + 256 * b1 + 65536 * b2)); lia.
Qed.

Lemma bswap_32_range x : 0 <= bswap_32 x < 2 ^ 32.
Proof.
  assert (bswap_32 x = bswap_32 x mod 2 ^ 32) as ->; [|apply Z.mod_pos_bound; lia].
  apply Z.bits_inj'. intros n Hn. destruct (Z.ltb_spec n 32).
  - rewrite Z.mod_pow2_bits_low by lia. reflexivity.
  - rewrite Z.mod_pow2_bits_high by lia. rewrite bswap_32_spec by lia.
    repeat match goal with |- context [?a <? ?b] => destruct (Z.ltb_spec a b); try lia end.
Qed.

(** The variable read back from four bytes and passed through [le32toh]
    holds their little-endian value, on either host. *)
Lemma le32toh_uint32_of_bytes host b0 b1 b2 b3 :
  is_byte b0 -> is_byte b1 -> is_byte b2 -> is_byte b3 ->
  le32toh host (uint32_of_bytes host [b0; b1; b2; b3]) = le32 b0 b1 b2 b3.
Proof.
  intros H0 H1 H2 H3.
  assert (forall c0 c1 c2 c3, is_byte c0 -> is_byte c1 -> is_byte c2 -> is_byte c3 ->
            foldr (fun b acc => Z.lor b (Z.shiftl acc 8)) 0 [c0; c1; c2; c3] = le32 c0 c1 c2 c3) as Hfold.
  { intros c0 c1 c2 c3 ? ? ? ?. simpl. rewrite Z.shiftl_0_l, Z.lor_0_r.
    rewrite !lor_shiftl_byte by done. unfold le32. lia. }
  destruct host; unfold le32toh, uint32_of_bytes.
  - apply Hfold; done.
  - change (reverse [b0; b1; b2; b3]) with [b3; b2; b1; b0]. rewrite Hfold by done.
    destruct (octet_le32 b3 b2 b1 b0) as (E0 & E1 & E2 & E3); try done.
    rewrite <- (le32_octets (bswap_32 (le32 b3 b2 b1 b0))) by apply bswap_32_range.
    rewrite !octet_bswap_32 by lia.
    change (3 - 0) with 3. change (3 - 1) with 2. change (3 - 2) with 1. change (3 - 3) with 0.
    rewrite E0, E1, E2, E3. reflexivity.
Qed.

(** ** Event sequences *)

Lemma printed_app fd t1 t2 : printed fd (t1 ++ t2) = printed fd t1 ++ printed fd t2.
Proof. apply omap_app. Qed.
Lemma listing_app t1 t2 : listing (t1 ++ t2) = listing t1 ++ listing t2.
Proof. unfold listing. rewrite printed_app. apply List.filter_app. Qed.
Lemma values_app t1 t2 : values (t1 ++ t2) = values t1 ++ values t2.
Proof. unfold values. rewrite printed_app. apply List.filter_app. Qed.
Lemma errors_app t1 t2 : errors (t1 ++ t2) = errors t1 ++ errors t2.
Proof. unfold errors. rewrite printed_app. apply List.filter_app. Qed.
Lemma opened_app t1 t2 : opened (t1 ++ t2) = opened t1 ++ opened t2.
Proof. apply omap_app. Qed.
Lemma sent_app t1 t2 : sent (t1 ++ t2) = sent t1 ++ sent t2.
Proof. apply omap_app. Qed.
Lemma codes_app t1 t2 : codes (t1 ++ t2) = codes t1 ++ codes t2.
Proof. apply omap_app. Qed.
Lemma transfers_app t1 t2 : transfers (t1 ++ t2) = transfers t1 ++ transfers t2.
Proof. apply List.filter_app. Qed.

Create Rewrite HintDb events.
#[local] Hint Rewrite listing_app values_app errors_app opened_app sent_app codes_app
  transfers_app : events.

(** Sequences without activity compose. *)
Lemma quiet_nil : quiet [].
Proof. repeat split. Qed.

Lemma quiet_app t1 t2 : quiet t1 -> quiet t2 -> quiet (t1 ++ t2).
Proof.
  intros (A1 & A2 & A3 & A4 & A5 & A6 & A7) (B1 & B2 & B3 & B4 & B5 & B6 & B7).
  unfold quiet. autorewrite with events.
  rewrite A1, A2, A3, A4, A5, A6, A7, B1, B2, B3, B4, B5, B6, B7. done.
Qed.

(** [pick] along the list of matches. *)
Lemma pick_cons m ms i idx :
  pick (m :: ms) i idx = if i =? idx then Some m else pick ms (i + 1) idx.
Proof.
  unfold pick. destruct (Z.eqb_spec i idx) as [->|Hne].
  - rewrite Z.ltb_irrefl, Z.sub_diag. reflexivity.
  - destruct (Z.ltb_spec idx i), (Z.ltb_spec idx (i + 1)); try lia; [done|].
    replace (Z.to_nat (idx - i)) with (S (Z.to_nat (idx - (i + 1)))) by lia.
    reflexivity.
Qed.

Lemma pick_0 ms idx : 0 <= idx -> pick ms 0 idx = ms !! Z.to_nat idx.
Proof.
  intros H. unfold pick. destruct (Z.ltb_spec idx 0); [lia|]. by rewrite Z.sub_0_r.
Qed.

(** When every descriptor can be read the loop reaches every device. *)
Lemma enumerated_all devs :
  Forall (fun d => 0 <= descriptor_result d) devs -> enumerated devs = devs.
Proof.
  induction 1 as [|d rest Hd _ IH]; [done|]. simpl.
  destruct (Z.ltb_spec (descriptor_result d) 0); [lia|]. by rewrite IH.
Qed.

Section Enumeration.
Context {device_state : Type}.
Implicit Types (w : @world device_state).

(** The enumeration loop, counting from [i]: it returns, leaves the world as
    it is, lists the matches in order, opens the match at the requested
    index only, and makes no transfer. *)
Lemma browse_loop_spec devs idx l i ctx w :
  exists t ctx',
    browse_loop devs idx l i ctx w = (Ret ctx', w, t) /\
    listing t = (if l then imap (fun k m => list_entry (i + Z.of_nat k) m) (matches devs) else []) /\
    opened t = option_list (fst <$> pick (matches devs) i idx) /\
    transfers t = [] /\ sent t = [] /\ codes t = [] /\ values t = [] /\ errors t = [] /\
    dev_handle ctx' =
      match pick (matches devs) i idx with
      | Some m => if open_result m.1 =? 0 then Some m.1 else dev_handle ctx
      | None => dev_handle ctx
      end /\
    device ctx' =
      match pick (matches devs) i idx with
      | Some m => Some m.1
      | None => device ctx
      end.
Proof.
  revert i ctx. induction devs as [|d rest IH]; intros i ctx.
  - exists [], ctx. unfold pick. simpl. destruct l, (idx <? i); done.
  - simpl browse_loop. unfold matches. simpl enumerated.
    destruct (descriptor_result d <? 0) eqn:Hd.
    { eexists _, ctx. split; [reflexivity|]. unfold pick. simpl.
      destruct l, (idx <? i); done. }
    simpl omap. fold (matches rest).
    destruct (supported d) as [p|] eqn:Hs; [|apply IH].
    rewrite pick_cons.
    destruct (i =? idx) eqn:Hi.
    + destruct (IH (i + 1) {| device := Some d;
                 dev_handle := if open_result d =? 0 then Some d else dev_handle ctx;
                 ctx_pcan_type := Some p |})
        as (t & ctx' & E & Hl & Ho & Ht & Hs' & Hc & Hv & He & Hh & Hdv).
      assert (pick (matches rest) (i + 1) idx = None) as Hp.
      { unfold pick. apply Z.eqb_eq in Hi. destruct (Z.ltb_spec idx (i + 1)); [done|lia]. }
      rewrite Hp in *.
      exists ((if l then [Output stdout (list_entry i (d, p))] else []) ++
              [UsbOpen d (open_result d)] ++
              (if open_result d <? 0 then [Output stdout (MsgOpenError (open_result d))] else []) ++
              t), ctx'.
      split.
      { unfold bind, when, printf, fprintf, emit, libusb_open, ret; simpl.
        destruct l, (open_result d <? 0); simpl; rewrite E; reflexivity. }
      autorewrite with events.
      rewrite Hl, Ho, Ht, Hs', Hc, Hv, He, Hh, Hdv.
      destruct l, (open_result d <? 0); simpl; repeat split; try done.
      all: rewrite Z.add_0_r; unfold list_entry at 1; simpl; f_equal;
        apply imap_ext; intros; simpl; f_equal; lia.
    + destruct (IH (i + 1) ctx)
        as (t & ctx' & E & Hl & Ho & Ht & Hs' & Hc & Hv & He & Hh & Hdv).
      exists ((if l then [Output stdout (list_entry i (d, p))] else []) ++ t), ctx'.
      split.
      { unfold bind, when, printf, fprintf, emit, ret; simpl.
        destruct l; simpl; rewrite E; reflexivity. }
      autorewrite with events.
      rewrite Hl, Ho, Ht, Hs', Hc, Hv, He, Hh, Hdv.
      destruct l; simpl; repeat split; try done.
      rewrite Z.add_0_r; unfold list_entry at 1; simpl; f_equal;
        apply imap_ext; intros; simpl; f_equal; lia.
Qed.

(** [browse_devices] when the device list is delivered. *)
Lemma browse_devices_spec host idx l w :
  0 <= device_list_result host -> 0 <= idx ->
  exists t ctx,
    browse_devices host idx l w = (Ret (0, ctx), w, t) /\
    listing t = (if l then imap (fun k m => list_entry (Z.of_nat k) m) (matches (devices host)) else []) /\
    opened t = option_list (fst <$> (matches (devices host) !! Z.to_nat idx)) /\
    transfers t = [] /\ sent t = [] /\ codes t = [] /\ values t = [] /\ errors t = [] /\
    dev_handle ctx =
      match matches (devices host) !! Z.to_nat idx with
      | Some m => if open_result m.1 =? 0 then Some m.1 else None
      | None => None
      end /\
    device ctx = fst <$> (matches (devices host) !! Z.to_nat idx).
Proof.
  intros Hl Hi. unfold browse_devices.
  destruct (Z.ltb_spec (device_list_result host) 0); [lia|].
  destruct (browse_loop_spec (devices host) idx l 0
              {| device := None; dev_handle := None; ctx_pcan_type := None |} w)
    as (t & ctx & E & H1 & H2 & H3 & H4 & H5 & H6 & H7 & H8 & H9).
  rewrite pick_0 in * by done.
  exists t, ctx. split.
  { unfold bind. rewrite E. simpl. by rewrite app_nil_r. }
  rewrite H1, H2, H8, H9. repeat split; done.
Qed.
End Enumeration.

(** ** Option parsing *)

Section Options.
Context {device_state : Type}.
Implicit Types (w : @world device_state).

(** [parse_long] returns; it changes [errno] only, prints to standard error
    only, and a value it delivers is a 32-bit one. *)
Lemma parse_long_spec arg w :
  exists v e t,
    parse_long arg w = (Ret v, {| errno := e; usb := usb w |}, t) /\ quiet t /\
    (forall x, v = Some x -> 0 <= x < 2 ^ 32 /\ t = []).
Proof.
  unfold parse_long.
  destruct (_ && _).
  - destruct (if _ && _ then strtoll arg 16 else strtoll arg 10) as [[val endptr] range].
    repeat match goal with
           | |- context [if ?b then _ else _] => destruct b
           end;
      eexists _, _, _; (split; [reflexivity|]); (split; [repeat split|]);
      intros x [=]; subst; split; try done; apply Z.mod_pos_bound; lia.
  - destruct w as [e s]. eexists None, e, _. split; [reflexivity|].
    split; [repeat split|]. intros x [=].
Qed.

(** Option parsing returns or exits, never crashes, changes [errno] only, and
    keeps [options_ok]. *)
Lemma parse_options_spec opts st w :
  exists o e t,
    parse_options opts st w = (o, {| errno := e; usb := usb w |}, t) /\ quiet t /\
    o <> Crash /\
    (forall st', o = Ret st' -> options_ok st -> options_ok st').
Proof.
  revert st w. induction opts as [|[c arg] rest IH]; intros st w.
  - destruct w as [e s]. exists (Ret st), e, []. split; [reflexivity|]. split; [apply quiet_nil|].
    split; [done|]. intros st' [=]. by subst.
  - simpl parse_options.
    repeat match goal with
           | |- context [if Ascii.eqb c ?x then _ else _] =>
               destruct (Ascii.eqb_spec c x) as [->|?]
           end.
    + destruct w as [e s]. eexists (Exit 0), e, _. split; [reflexivity|].
      split; [repeat split|]. split; done.
    + destruct (parse_long_spec arg w) as (v & e & t & E & Hq & Hv).
      unfold bind at 1. rewrite E. destruct v as [v|].
      * destruct (IH {| device_idx := v; device_id := device_id st;
                        serial_nr := serial_nr st; action := action st |}
                     {| errno := e; usb := usb w |}) as (o & e' & t' & E' & Hq' & Hc & Hok).
        rewrite E'. simpl. eexists o, e', _. split; [reflexivity|].
        split; [by apply quiet_app|]. split; [done|].
        intros st' -> (H1 & H2 & H3). apply Hok; [done|].
        destruct (Hv v eq_refl). split; [simpl; lia|]. split; simpl; done.
      * simpl. eexists (Exit 1), e, _. split; [reflexivity|].
        split; [|done]. rewrite app_nil_r. done.
    + destruct (parse_long_spec arg w) as (v & e & t & E & Hq & Hv).
      unfold bind at 1. rewrite E. destruct v as [v|].
      * destruct (IH {| device_idx := device_idx st; device_id := device_id st;
                        serial_nr := Some v; action := "s" |}
                     {| errno := e; usb := usb w |}) as (o & e' & t' & E' & Hq' & Hc & Hok).
        rewrite E'. simpl. eexists o, e', _. split; [reflexivity|].
        split; [by apply quiet_app|]. split; [done|].
        intros st' -> (H1 & H2 & H3). apply Hok; [done|].
        destruct (Hv v eq_refl).
        split; [done|]. split; simpl; [intros [=]|]. intros _. exists v. split; [done|lia].
      * simpl. eexists (Exit 1), e, _. split; [reflexivity|].
        split; [|done]. rewrite app_nil_r. done.
    + destruct (parse_long_spec arg w) as (v & e & t & E & Hq & Hv).
      unfold bind at 1. rewrite E. destruct v as [v|].
      * destruct (Z.leb_spec UCHAR_MAX v) as [Hv'|Hv'].
        { simpl. eexists (Exit 1), e, _. split; [reflexivity|].
          split; [|done]. apply quiet_app; [done|repeat split]. }
        destruct (IH {| device_idx := device_idx st; device_id := Some (uint8 v);
                        serial_nr := serial_nr st; action := "i" |}
                     {| errno := e; usb := usb w |}) as (o & e' & t' & E' & Hq' & Hc & Hok).
        rewrite E'. simpl. eexists o, e', _. split; [reflexivity|].
        split; [by apply quiet_app|]. split; [done|].
        intros st' -> (H1 & H2 & H3). apply Hok; [done|].
        destruct (Hv v eq_refl). unfold UCHAR_MAX in Hv'.
        split; [done|]. split; simpl; [|intros [=]].
        intros _. exists (uint8 v). split; [done|].
        unfold uint8. rewrite Z.mod_small; lia.
      * simpl. eexists (Exit 1), e, _. split; [reflexivity|].
        split; [|done]. rewrite app_nil_r. done.
    + destruct (IH {| device_idx := device_idx st; device_id := device_id st;
                      serial_nr := serial_nr st; action := "l" |} w)
        as (o & e' & t' & E' & Hq' & Hc & Hok).
      eexists o, e', _. split; [exact E'|]. split; [done|]. split; [done|].
      intros st' -> (H1 & H2 & H3). apply Hok; [done|].
      split; [done|]. split; simpl; intros [=].
    + destruct (IH {| device_idx := device_idx st; device_id := device_id st;
                      serial_nr := serial_nr st; action := "q" |} w)
        as (o & e' & t' & E' & Hq' & Hc & Hok).
      eexists o, e', _. split; [exact E'|]. split; [done|]. split; [done|].
      intros st' -> (H1 & H2 & H3). apply Hok; [done|].
      split; [done|]. split; simpl; intros [=].
    + destruct w as [e s]. eexists (Exit 1), e, _. split; [reflexivity|].
      split; [repeat split|]. split; done.
Qed.
End Options.

(** ** Packets *)

Lemma Forall_list_inserts {A} (P : A -> Prop) (l k : list A) i :
  Forall P l -> Forall P k -> Forall P (list_inserts i k l).
Proof.
  intros Hl Hk. revert i. induction Hk as [|x k Hx _ IH]; intros i; simpl; [done|].
  apply Forall_insert; [apply IH|done].
Qed.

Lemma uint8_is_byte v : is_byte (uint8 v).
Proof. unfold is_byte, uint8. apply Z.mod_pos_bound. lia. Qed.

Lemma length_received buf rx : length (received buf rx) = length buf.
Proof. apply length_inserts. Qed.

Lemma received_is_byte buf rx : Forall is_byte buf -> Forall is_byte (received buf rx).
Proof.
  intros H. apply Forall_list_inserts; [done|]. apply Forall_take, Forall_fmap.
  apply Forall_true. intros x. apply uint8_is_byte.
Qed.

Lemma received_nil buf : received buf [] = buf.
Proof. unfold received. simpl. by rewrite take_nil. Qed.

Lemma set_device_id_pkt_eq id : set_device_id_pkt id = [4; 2; id] ++ replicate 13 0.
Proof. reflexivity. Qed.

Lemma set_serial_nr_pkt_eq host sn :
  set_serial_nr_pkt host sn =
    [6; 2; octet 0 sn; octet 1 sn; octet 2 sn; octet 3 sn] ++ replicate 10 0.
Proof. unfold set_serial_nr_pkt. rewrite uint32_bytes_htole32. reflexivity. Qed.

Lemma get_device_id_pkt_eq : get_device_id_pkt = [4; 1] ++ replicate 14 0.
Proof. reflexivity. Qed.

Lemma get_serial_nr_pkt_eq : get_serial_nr_pkt = [6; 1] ++ replicate 14 0.
Proof. reflexivity. Qed.

Lemma get_pkts_is_byte : Forall is_byte get_device_id_pkt /\ Forall is_byte get_serial_nr_pkt.
Proof. split; repeat constructor; done. Qed.

(** The serial number read out of a packet is the little-endian value of
    its bytes 2 to 5, on either host. *)
Lemma serial_nr_of_pkt_le32 host (pkt : packet) :
  (6 <= length pkt)%nat -> Forall is_byte pkt ->
  serial_nr_of_pkt host pkt =
    le32 (pkt !!! 2%nat) (pkt !!! 3%nat) (pkt !!! 4%nat) (pkt !!! 5%nat).
Proof.
  intros Hlen Hb.
  do 6 (destruct pkt as [|? pkt]; [simpl in Hlen; lia|]).
  unfold serial_nr_of_pkt, memcpy_from. simpl.
  rewrite take_0.
  repeat match goal with H : Forall _ (_ :: _) |- _ => apply Forall_cons in H as [? H] end.
  by apply le32toh_uint32_of_bytes.
Qed.

(** ** The actions *)

Section Actions.
Context {device_state : Type}.
Variable bulk_out : usb_device -> Z -> device_state -> packet -> device_state * Z.
Variable bulk_in : usb_device -> Z -> device_state -> device_state * (Z * list Z).
Variable host_order : byte_order.
Implicit Types (w : @world device_state).

Lemma reported_quiet r :
  transfers (reported r) = [] /\ sent (reported r) = [] /\ codes (reported r) = [] /\
  opened (reported r) = [] /\ values (reported r) = [] /\ listing (reported r) = [].
Proof. unfold reported. destruct (r =? LIBUSB_SUCCESS); done. Qed.


(** The events of the action block, action by action. *)
Lemma perform_i h st w id :
  action st = "i"%char -> device_id st = Some id ->
  exists r s,
    perform bulk_out bulk_in host_order h st w =
      (Ret (), {| errno := errno w; usb := s |},
       [BulkOut h 0x1 (set_device_id_pkt id) r] ++ reported r).
Proof.
  intros Ha Hid. unfold perform, set_device_id. rewrite Ha, Hid. simpl.
  unfold bind, libusb_bulk_transfer. simpl.
  destruct (bulk_out h 1 (usb w) (set_device_id_pkt id)) as [s r].
  exists r, s. unfold report, reported, when, printf, fprintf, emit, ret.
  destruct (r =? LIBUSB_SUCCESS); reflexivity.
Qed.

Lemma perform_s h st w sn :
  action st = "s"%char -> serial_nr st = Some sn ->
  exists r s,
    perform bulk_out bulk_in host_order h st w =
      (Ret (), {| errno := errno w; usb := s |},
       [BulkOut h 0x1 (set_serial_nr_pkt host_order sn) r] ++ reported r).
Proof.
  intros Ha Hid. unfold perform, set_serial_nr. rewrite Ha, Hid. simpl.
  unfold bind, libusb_bulk_transfer. simpl.
  destruct (bulk_out h 1 (usb w) (set_serial_nr_pkt host_order sn)) as [s r].
  exists r, s. unfold report, reported, when, printf, fprintf, emit, ret.
  destruct (r =? LIBUSB_SUCCESS); reflexivity.
Qed.

Lemma perform_q h st w :
  action st = "q"%char ->
  exists r1 r2 rx2 r3 r4 rx4 s,
    perform bulk_out bulk_in host_order h st w =
      (Ret (), {| errno := errno w; usb := s |},
       [BulkOut h 0x1 get_device_id_pkt r1] ++ reported r1 ++
       [BulkIn h 0x81 r2 (received get_device_id_pkt rx2)] ++ reported r2 ++
       [Output stdout (MsgHex "device_id" (device_id_of_pkt (received get_device_id_pkt rx2)))] ++
       [BulkOut h 0x1 get_serial_nr_pkt r3] ++ reported r3 ++
       [BulkIn h 0x81 r4 (received get_serial_nr_pkt rx4)] ++ reported r4 ++
       [Output stdout (MsgHex "serial_number"
                        (serial_nr_of_pkt host_order (received get_serial_nr_pkt rx4)))]).
Proof.
  intros Ha. unfold perform, query. rewrite Ha. simpl.
  unfold bind, libusb_bulk_transfer. simpl.
  destruct (bulk_out h 1 (usb w) get_device_id_pkt) as [s1 r1].
  destruct (bulk_in h 129 s1) as [s2 [r2 rx2]] eqn:E2.
  destruct (bulk_out h 1 s2 get_serial_nr_pkt) as [s3 r3] eqn:E3.
  destruct (bulk_in h 129 s3) as [s4 [r4 rx4]] eqn:E4.
  exists r1, r2, rx2, r3, r4, rx4, s4.
  unfold report, reported, when, printf, fprintf, emit, ret.
  destruct (r1 =? LIBUSB_SUCCESS); simpl; rewrite E2; simpl;
  destruct (r2 =? LIBUSB_SUCCESS); simpl; rewrite E3; simpl;
  destruct (r3 =? LIBUSB_SUCCESS); simpl; rewrite E4; simpl;
  destruct (r4 =? LIBUSB_SUCCESS); reflexivity.
Qed.


(** The calls before the action print and claim only; they end the run when a
    descriptor cannot be read. *)
Lemma prepare_spec d h w :
  exists o t,
    prepare d h w = (o, w, t) /\ quiet t /\ o <> Crash /\
    (0 <= descriptor_result d -> config_descriptor_result d = 0 -> o = Ret ()).
Proof.
  unfold prepare, bind, when, printf, fprintf, emit, exit, ret. simpl.
  destruct (Z.ltb_spec (descriptor_result d) 0).
  { eexists _, _. split; [reflexivity|]. split; [repeat split|]. split; [done|lia]. }
  destruct (Z.eqb_spec (config_descriptor_result d) 0); simpl.
  2: { eexists _, _. split; [reflexivity|]. split; [repeat split|]. split; done. }
  destruct (iManufacturer d =? 0), (iProduct d =? 0); simpl;
    eexists _, _; (split; [reflexivity|]); (split; [repeat split|]); split; done.
Qed.

Lemma bind_Ret {A B} (m : M A) (k : A -> M B) w a w1 t1 :
  m w = (Ret a, w1, t1) ->
  bind m k w = (let '(o, w2, t2) := k a w1 in (o, w2, t1 ++ t2)).
Proof. intros E. unfold bind. rewrite E. reflexivity. Qed.

(** The descriptor of a match was read. *)
Lemma matches_descriptor devs i m :
  matches devs !! i = Some m -> 0 <= descriptor_result m.1.
Proof.
  intros H. apply list_elem_of_lookup_2 in H. unfold matches in H.
  apply list_elem_of_omap in H as (d & Hd & Hm).
  destruct (supported d); [|done]. injection Hm as <-. simpl.
  clear -Hd. induction devs as [|x devs IH]; simpl in Hd; [by apply elem_of_nil in Hd|].
  destruct (Z.ltb_spec (descriptor_result x) 0); [by apply elem_of_nil in Hd|].
  apply elem_of_cons in Hd as [->|Hd]; [done|by apply IH].
Qed.

(** A run that reaches its action on [d]: before the action it opens [d] and
    makes no transfer, after it come the clean-up calls. *)
Lemma main_selected host opts w st w1 t1 d :
  parse_options opts initial_options w = (Ret st, w1, t1) ->
  action st <> zero -> action st <> "l"%char ->
  selects host (uint8 (device_idx st)) d ->
  exists pre,
    (transfers pre = [] /\ sent pre = [] /\ codes pre = [] /\ values pre = [] /\
     errors pre = [] /\ opened pre = [d]) /\
    main bulk_out bulk_in host_order host opts w =
      match perform bulk_out bulk_in host_order d st w1 with
      | (Ret _, w2, t2) => (Ret 0, w2, pre ++ t2 ++ cleanup_events d)
      | (Exit c, w2, t2) => (Exit c, w2, pre ++ t2)
      | (Crash, w2, t2) => (Crash, w2, pre ++ t2)
      end.
Proof.
  intros Hparse Hz Hl (Hinit & Hlist & Hsel & Hopen & Hcfg).
  assert (0 <= uint8 (device_idx st)) as Hidx by (apply Z.mod_pos_bound; lia).
  destruct (parse_options_spec opts initial_options w)
    as (o & e & t & E & (Q1 & Q2 & Q3 & Q4 & Q5 & Q6 & Q7) & _ & _).
  rewrite Hparse in E. injection E as <- -> <-.
  destruct (browse_devices_spec host (uint8 (device_idx st)) (Ascii.eqb (action st) "l")
              {| errno := e; usb := usb w |} Hlist Hidx)
    as (tb & ctx & Eb & B1 & B2 & B3 & B4 & B5 & B6 & B7 & Hh & Hd).
  destruct (matches (devices host) !! Z.to_nat (uint8 (device_idx st))) as [m|] eqn:Hm;
    [|done].
  injection Hsel as <-.
  destruct (prepare_spec m.1 m.1 {| errno := e; usb := usb w |})
    as (op & tp & Ep & (P1 & P2 & P3 & P4 & P5 & P6 & P7) & _ & Hp).
  rewrite (Hp (matches_descriptor _ _ _ Hm) Hcfg) in Ep.
  exists (t1 ++ tb ++ tp). split.
  { autorewrite with events.
    rewrite Q1, Q2, Q3, Q4, Q5, Q6, B2, B3, B4, B5, B6, B7, P1, P2, P3, P4, P5, P6. done. }
  unfold main. rewrite (bind_Ret _ _ _ _ _ _ Hparse).
  destruct (Ascii.eqb_spec (action st) zero); [done|].
  rewrite Hinit. change (negb (0 =? 0)) with false. cbv iota.
  rewrite (bind_Ret _ _ _ _ _ _ Eb). cbv beta iota.
  change (negb (0 =? 0)) with false. cbv iota.
  rewrite Hh, Hopen. simpl.
  destruct (Ascii.eqb_spec (action st) "l"); [done|].
  rewrite Hd. simpl.
  rewrite (bind_Ret _ _ _ _ _ _ Ep).
  unfold bind at 1.
  destruct (perform bulk_out bulk_in host_order m.1 st {| errno := e; usb := usb w |}) as [[o w2] t2].
  destruct o; simpl; rewrite <- ?app_assoc; reflexivity.
Qed.

Lemma perform_none h st w :
  action st <> "i"%char -> action st <> "s"%char -> action st <> "q"%char ->
  perform bulk_out bulk_in host_order h st w = (Ret (), w, []).
Proof.
  intros Hi Hs Hq. unfold perform.
  destruct (Ascii.eqb_spec (action st) "i"); [done|].
  destruct (Ascii.eqb_spec (action st) "s"); [done|].
  destruct (Ascii.eqb_spec (action st) "q"); [done|].
  reflexivity.
Qed.

(** The events of a sequence of two computations. *)
Lemma events_bind {A B} (m : M A) (k : A -> M B) w :
  events (bind m k w) =
    events (m w) ++ match m w with
                    | (Ret a, w1, _) => events (k a w1)
                    | _ => []
                    end.
Proof.
  unfold bind, events. destruct (m w) as [[[a| |] w1] t1]; simpl.
  - destruct (k a w1) as [[? ?] ?]. reflexivity.
  - by rewrite app_nil_r.
  - by rewrite app_nil_r.
Qed.

(** Whatever the locals hold, the action block opens and lists nothing and
    sends command packets only. *)
Lemma perform_events h st w :
  options_ok st ->
  exists o w' t,
    perform bulk_out bulk_in host_order h st w = (o, w', t) /\ opened t = [] /\ listing t = [] /\
    Forall command_packet (sent t).
Proof.
  intros (_ & Hi & Hs).
  destruct (Ascii.eqb_spec (action st) "i") as [Ei|Ni].
  { destruct (Hi Ei) as (id & Hid & Hb).
    destruct (perform_i h st w id Ei Hid) as (r & s & ->).
    eexists _, _, _. split; [reflexivity|].
    autorewrite with events. destruct (reported_quiet r) as (_ & -> & _ & -> & _ & ->).
    repeat split; try done. simpl. repeat constructor; unfold is_byte; lia. }
  destruct (Ascii.eqb_spec (action st) "s") as [Es|Ns].
  { destruct (Hs Es) as (sn & Hsn & Hb).
    destruct (perform_s h st w sn Es Hsn) as (r & s & ->).
    eexists _, _, _. split; [reflexivity|].
    autorewrite with events. destruct (reported_quiet r) as (_ & -> & _ & -> & _ & ->).
    repeat split; try done. simpl. rewrite set_serial_nr_pkt_eq.
    repeat constructor; apply octet_is_byte; lia. }
  destruct (Ascii.eqb_spec (action st) "q") as [Eq|Nq].
  { destruct (perform_q h st w Eq) as (r1 & r2 & rx2 & r3 & r4 & rx4 & s & ->).
    eexists _, _, _. split; [reflexivity|].
    autorewrite with events.
    destruct (reported_quiet r1) as (_ & -> & _ & -> & _ & ->).
    destruct (reported_quiet r2) as (_ & -> & _ & -> & _ & ->).
    destruct (reported_quiet r3) as (_ & -> & _ & -> & _ & ->).
    destruct (reported_quiet r4) as (_ & -> & _ & -> & _ & ->).
    repeat split; try done. simpl. repeat constructor. }
  rewrite perform_none by done. eexists _, _, _. split; [reflexivity|]. repeat split; done.
Qed.

(** A run sends command packets only. *)
Lemma main_sent host opts w :
  options_ok initial_options ->
  Forall command_packet (sent (events (main bulk_out bulk_in host_order host opts w))).
Proof.
  intros Hinit. unfold main. rewrite events_bind, sent_app.
  destruct (parse_options_spec opts initial_options w)
    as (o & e & t & E & (_ & Q & _) & _ & Hok).
  rewrite E. unfold events at 1. simpl. rewrite Q. simpl.
  destruct o as [st| |]; [|done..].
  specialize (Hok st eq_refl Hinit).
  destruct (Ascii.eqb (action st) zero); [done|].
  destruct (negb (init_result host =? 0)); [done|].
  rewrite events_bind, sent_app.
  set (w1 := {| errno := e; usb := usb w |}).
  assert (exists r ctx tb,
            browse_devices host (uint8 (device_idx st)) (Ascii.eqb (action st) "l") w1
            = (Ret (r, ctx), w1, tb) /\ sent tb = []) as (r & ctx & tb & Eb & Hb).
  { unfold browse_devices. destruct (device_list_result host <? 0).
    - eexists _, _, _. split; reflexivity.
    - destruct (browse_loop_spec (devices host) (uint8 (device_idx st))
                  (Ascii.eqb (action st) "l") 0
                  {| device := None; dev_handle := None; ctx_pcan_type := None |} w1)
        as (tb & ctx & Eb & _ & _ & _ & Hs & _).
      eexists _, _, _. unfold bind. rewrite Eb. simpl. rewrite app_nil_r. done. }
  rewrite Eb. unfold events at 1. simpl. rewrite Hb. simpl.
  destruct (negb (r =? 0)); [done|].
  destruct (dev_handle ctx) as [h|]; [|done].
  destruct (Ascii.eqb (action st) "l"); [done|].
  destruct (device ctx) as [d|]; [|done].
  rewrite events_bind, sent_app.
  destruct (prepare_spec d h w1) as (op & tp & Ep & (_ & P & _) & _).
  rewrite Ep. unfold events at 1. simpl. rewrite P. simpl.
  destruct op; [|done..].
  rewrite events_bind, sent_app.
  destruct (perform_events h st w1 Hok) as (o2 & w2 & t2 & E2 & _ & _ & H2).
  rewrite E2. unfold events at 1. simpl.
  apply Forall_app. split; [done|]. destruct o2; done.
Qed.

Lemma initial_options_ok : options_ok initial_options.
Proof. split; [simpl; lia|]. split; intros [=]. Qed.

(** Past option parsing and initialisation, a run opens the catalog match
    at the index it hands to the enumeration, and nothing else; without an
    open handle it ends there with the "not found" message. *)
Lemma main_enumerates host opts w st w1 t1 :
  parse_options opts initial_options w = (Ret st, w1, t1) ->
  action st <> zero -> init_result host = 0 -> 0 <= device_list_result host ->
  exists o w' rest,
    main bulk_out bulk_in host_order host opts w = (o, w', t1 ++ rest) /\
    opened rest =
      option_list (fst <$> (matches (devices host) !! Z.to_nat (uint8 (device_idx st)))) /\
    (match matches (devices host) !! Z.to_nat (uint8 (device_idx st)) with
     | Some m => open_result m.1 <> 0
     | None => True
     end ->
     o = Exit 1 /\ transfers rest = [] /\
     exists tb, rest = tb ++ [Output stderr MsgNotFound]).
Proof.
  intros Hparse Hz Hinit Hlist.
  assert (0 <= uint8 (device_idx st)) as Hidx by (apply Z.mod_pos_bound; lia).
  destruct (parse_options_spec opts initial_options w)
    as (o & e & t & E & _ & _ & Hok).
  rewrite Hparse in E. injection E as <- -> <-.
  specialize (Hok st eq_refl initial_options_ok).
  set (w1 := {| errno := e; usb := usb w |}).
  destruct (browse_devices_spec host (uint8 (device_idx st)) (Ascii.eqb (action st) "l")
              w1 Hlist Hidx)
    as (tb & ctx & Eb & B1 & B2 & B3 & B4 & B5 & B6 & B7 & Hh & Hd).
  unfold main. rewrite (bind_Ret _ _ _ _ _ _ Hparse).
  destruct (Ascii.eqb_spec (action st) zero); [done|].
  rewrite Hinit. change (negb (0 =? 0)) with false. cbv iota.
  rewrite (bind_Ret _ _ _ _ _ _ Eb). cbv beta iota.
  change (negb (0 =? 0)) with false. cbv iota.
  rewrite Hh.
  destruct (matches (devices host) !! Z.to_nat (uint8 (device_idx st))) as [m|] eqn:Hm.
  2: { eexists _, _, _. split; [reflexivity|]. autorewrite with events. rewrite B2, B3.
       repeat split; try done. eauto. }
  destruct (Z.eqb_spec (open_result m.1) 0) as [Hopen|Hopen].
  2: { eexists _, _, _. split; [reflexivity|]. autorewrite with events. rewrite B2, B3.
       repeat split; try done. eauto. }
  destruct (Ascii.eqb (action st) "l").
  { eexists _, _, _. split; [reflexivity|]. autorewrite with events. rewrite B2.
    simpl. split; [by rewrite ?app_nil_r|intros ?; done]. }
  rewrite Hd. cbv [fmap option_fmap option_map].
  destruct (prepare_spec m.1 m.1 w1) as (op & tp & Ep & (_ & _ & _ & P & _) & _).
  destruct (perform_events m.1 st w1 Hok) as (o2 & w2 & t2 & E2 & H2 & _).
  unfold bind. rewrite Ep. destruct op.
  - rewrite E2. destruct o2; simpl; eexists _, _, _; (split; [reflexivity|]);
      autorewrite with events; rewrite B2, P, H2; simpl;
      (split; [by rewrite ?app_nil_r|intros ?; done]).
  - eexists _, _, _. split; [reflexivity|]. autorewrite with events. rewrite B2, P.
    simpl. split; [by rewrite ?app_nil_r|intros ?; done].
  - eexists _, _, _. split; [reflexivity|]. autorewrite with events. rewrite B2, P.
    simpl. split; [by rewrite ?app_nil_r|intros ?; done].
Qed.
End Actions.

(** * The claims *)

(** ** The serial number on the wire *)

(** C2. For every 32-bit serial number, the bytes 2 to 5 of the packet the
    set-serial-number action builds are the bytes of the number, least
    significant first, whatever the byte order of the host that builds it;
    and what the query action reads out of these bytes, on a host of either
    byte order, is the number again. *)
Theorem serial_nr_roundtrip (sender receiver : byte_order) (sn : Z) :
  0 <= sn < 2 ^ 32 ->
  memcpy_from (set_serial_nr_pkt sender sn) 2 4 =
    [octet 0 sn; octet 1 sn; octet 2 sn; octet 3 sn] /\
  serial_nr_of_pkt receiver (set_serial_nr_pkt sender sn) = sn.
Proof.
  intros Hsn. rewrite set_serial_nr_pkt_eq. split; [reflexivity|].
  rewrite serial_nr_of_pkt_le32.
  - simpl. by apply le32_octets.
  - simpl. lia.
  - repeat constructor; try apply octet_is_byte; unfold is_byte; lia.
Qed.

Lemma serial_nr_roundtrip_01020304 :
  memcpy_from (set_serial_nr_pkt BigEndian 0x01020304) 2 4 = [0x04; 0x03; 0x02; 0x01] /\
  serial_nr_of_pkt LittleEndian (set_serial_nr_pkt BigEndian 0x01020304) = 0x01020304.
Proof.
  apply (serial_nr_roundtrip BigEndian LittleEndian 0x01020304). lia.
Defined.

(** ** The enumerator *)

Lemma command_packet_length pkt : command_packet pkt -> length pkt = 16%nat.
Proof. by destruct 1. Qed.

Lemma listing_elem_of m t : m ∈ listing t -> Output stdout m ∈ t.
Proof.
  unfold listing, printed. intros H. apply list_elem_of_In in H.
  apply List.filter_In in H as [H _]. apply list_elem_of_In in H.
  apply list_elem_of_omap in H as (e & He & Hm).
  destruct e as [[|] m'| | | | | | | | |]; try done. by injection Hm as ->.
Qed.

Lemma supported_in_catalog d p : supported d = Some p -> in_catalog d = true.
Proof.
  unfold supported, in_catalog. intros H. apply List.find_some in H as [Hin Hp].
  apply List.existsb_exists. eauto.
Qed.

Lemma in_catalog_supported d : in_catalog d = true -> is_Some (supported d).
Proof.
  unfold supported, in_catalog. intros H.
  destruct (List.find _ pcan_types) eqn:E; [eauto|].
  apply List.existsb_exists in H as (p & Hin & Hp).
  by rewrite (List.find_none _ _ E p Hin) in Hp.
Qed.

Lemma matches_supported devs m : m ∈ matches devs -> supported m.1 = Some m.2.
Proof.
  unfold matches. intros H. apply list_elem_of_omap in H as (d & _ & H).
  destruct (supported d) eqn:E; [|done]. by injection H as <-.
Qed.

Lemma matches_all devs :
  Forall (fun d => 0 <= descriptor_result d) devs ->
  fst <$> matches devs = List.filter in_catalog devs.
Proof.
  intros H. unfold matches. rewrite (enumerated_all _ H). clear H.
  induction devs as [|d devs IH]; [done|]. cbn [omap list_omap List.filter].
  destruct (supported d) as [p|] eqn:E.
  - rewrite (supported_in_catalog _ _ E). rewrite fmap_cons. by rewrite IH.
  - destruct (in_catalog d) eqn:Ec; [|done].
    apply in_catalog_supported in Ec as [p Ep]. congruence.
Qed.

(** The matches are the devices of the catalog among those the loop
    reaches. *)
Lemma matches_enumerated devs :
  fst <$> matches devs = List.filter in_catalog (enumerated devs).
Proof.
  unfold matches.
  induction (enumerated devs) as [|d ds IH]; [done|]. cbn [omap list_omap List.filter].
  destruct (supported d) as [p|] eqn:E.
  - rewrite (supported_in_catalog _ _ E). rewrite fmap_cons. by rewrite IH.
  - destruct (in_catalog d) eqn:Ec; [|done].
    apply in_catalog_supported in Ec as [p Ep]. congruence.
Qed.

(** The loop reaches the devices before the first one whose descriptor
    cannot be read. *)
Lemma enumerated_prefix devs :
  exists rest,
    devs = enumerated devs ++ rest /\
    Forall (fun d => 0 <= descriptor_result d) (enumerated devs) /\
    (forall bad, head rest = Some bad -> descriptor_result bad < 0).
Proof.
  induction devs as [|d devs (rest & E & Hread & Hbad)].
  - exists []. done.
  - simpl. destruct (Z.ltb_spec (descriptor_result d) 0).
    + exists (d :: devs). split; [done|]. split; [done|]. by intros bad [= <-].
    + exists rest. split; [simpl; by rewrite <- E|]. split; [by constructor|done].
Qed.

Section Enumerator.
Context {device_state : Type}.
Implicit Types (w : @world device_state).

(** C7 (amended).  For every device list the system delivers, the
    listing of the enumerator is the sequence of catalog matches in
    enumeration order, each with its position in that sequence as index,
    from zero: a device that matches no catalog entry gets no line and takes
    no index.  The matches are the devices with the vendor and product id of
    a catalog entry among the devices the enumeration reaches, which are
    those before the first device whose descriptor cannot be read; when
    every descriptor can be read they are all such devices of the list. *)
Theorem browse_devices_indices (host : usb_host) (idx : Z) w :
  0 <= device_list_result host ->
  listing (events (browse_devices host idx true w)) =
    imap (fun k m => list_entry (Z.of_nat k) m) (matches (devices host)) /\
  (forall m, m ∈ matches (devices host) ->
     supported m.1 = Some m.2 /\ in_catalog m.1 = true) /\
  fst <$> matches (devices host) = List.filter in_catalog (enumerated (devices host)) /\
  (exists rest,
     devices host = enumerated (devices host) ++ rest /\
     Forall (fun d => 0 <= descriptor_result d) (enumerated (devices host)) /\
     (forall bad, head rest = Some bad -> descriptor_result bad < 0)) /\
  (Forall (fun d => 0 <= descriptor_result d) (devices host) ->
   fst <$> matches (devices host) = List.filter in_catalog (devices host)).
Proof.
  intros Hlist. split; [|split; [|split; [|split]]].
  - unfold browse_devices. destruct (Z.ltb_spec (device_list_result host) 0); [lia|].
    destruct (browse_loop_spec (devices host) idx true 0
                {| device := None; dev_handle := None; ctx_pcan_type := None |} w)
      as (t & ctx & E & Hl & _).
    unfold bind. rewrite E. unfold events. simpl. by rewrite app_nil_r.
  - intros m Hm. pose proof (matches_supported _ _ Hm) as Hs.
    split; [done|]. by apply supported_in_catalog in Hs.
  - apply matches_enumerated.
  - apply enumerated_prefix.
  - apply matches_all.
Qed.

(** C4 (amended).  In list mode the enumerator prints, for every
    catalog match it enumerates, a line with its index, vendor and product
    id, bus number, address and catalog name; and it opens the match whose
    index is the requested one, and no other device. *)
Theorem list_mode_prints_and_opens (host : usb_host) (idx : Z) w :
  0 <= device_list_result host -> 0 <= idx ->
  (forall (k : nat) m, matches (devices host) !! k = Some m ->
     Output stdout (MsgListEntry (Z.of_nat k) (idVendor m.1) (idProduct m.1)
                      (bus_number m.1) (device_address m.1) (name m.2))
       ∈ events (browse_devices host idx true w)) /\
  opened (events (browse_devices host idx true w)) =
    option_list (fst <$> (matches (devices host) !! Z.to_nat idx)).
Proof.
  intros Hlist Hidx.
  destruct (browse_devices_spec host idx true w Hlist Hidx)
    as (t & ctx & E & Hl & Ho & _).
  rewrite E. unfold events. simpl. split; [|done].
  intros k m Hm. apply listing_elem_of. rewrite Hl.
  apply list_elem_of_lookup. exists k. rewrite list_lookup_imap, Hm. reflexivity.
Qed.
End Enumerator.

(** ** Runs of the program *)

Section Runs.
Context {device_state : Type}.
Variable bulk_out : usb_device -> Z -> device_state -> packet -> device_state * Z.
Variable bulk_in : usb_device -> Z -> device_state -> device_state * (Z * list Z).
Variable host_order : byte_order.
Implicit Types (w : @world device_state) (s : device_state).

(** A run that reaches its action: the events before the action are free
    of transfers, and the run ends with the clean-up calls. *)
Lemma run_selected host opts s st d :
  parsed opts s st -> action st <> zero -> action st <> "l"%char ->
  selects host (uint8 (device_idx st)) d ->
  options_ok st /\
  exists pre w1,
    (transfers pre = [] /\ sent pre = [] /\ codes pre = [] /\ values pre = [] /\
     errors pre = [] /\ opened pre = [d]) /\
    run bulk_out bulk_in host_order host opts s =
      match perform bulk_out bulk_in host_order d st w1 with
      | (Ret _, w2, t2) => (Ret 0, w2, pre ++ t2 ++ cleanup_events d)
      | (Exit c, w2, t2) => (Exit c, w2, pre ++ t2)
      | (Crash, w2, t2) => (Crash, w2, pre ++ t2)
      end.
Proof.
  unfold parsed, run. intros Hp Hz Hl Hsel.
  destruct (parse_options_spec opts initial_options {| errno := 0; usb := s |})
    as (o & e & t1 & E & _ & _ & Hok).
  rewrite E in Hp. unfold result in Hp. simpl in Hp. subst o.
  split; [exact (Hok st eq_refl initial_options_ok)|].
  destruct (main_selected bulk_out bulk_in host_order host opts _ st _ t1 d E Hz Hl Hsel)
    as (pre & Hpre & Hmain).
  eauto.
Qed.

(** C1. For the query action the program performs two exchanges: it sends
    a packet with bytes 4, 1 and zeros and reads a response, then sends a
    packet with bytes 6, 1 and zeros and reads a response.  The device id it
    prints is byte 2 of the first response packet, the serial number is the
    little-endian value of bytes 2 to 5 of the second, on a host of either
    byte order. *)
Theorem query_exchanges host opts s st d :
  parsed opts s st -> action st = "q"%char ->
  selects host (uint8 (device_idx st)) d ->
  exists r1 r2 p2 r3 r4 p4,
    transfers (events (run bulk_out bulk_in host_order host opts s)) =
      [BulkOut d 0x1 ([4; 1] ++ replicate 14 0) r1; BulkIn d 0x81 r2 p2;
       BulkOut d 0x1 ([6; 1] ++ replicate 14 0) r3; BulkIn d 0x81 r4 p4] /\
    length p2 = 16%nat /\ length p4 = 16%nat /\
    values (events (run bulk_out bulk_in host_order host opts s)) =
      [MsgHex "device_id" (p2 !!! 2%nat);
       MsgHex "serial_number"
         (le32 (p4 !!! 2%nat) (p4 !!! 3%nat) (p4 !!! 4%nat) (p4 !!! 5%nat))].
Proof.
  intros Hp Ha Hsel.
  destruct (run_selected host opts s st d Hp) as (_ & pre & w1 & Hpre & ->);
    [by rewrite Ha..|done|].
  destruct Hpre as (T1 & _ & _ & T4 & _).
  destruct (perform_q bulk_out bulk_in host_order d st w1 Ha)
    as (r1 & r2 & rx2 & r3 & r4 & rx4 & s' & ->).
  exists r1, r2, (received get_device_id_pkt rx2), r3, r4, (received get_serial_nr_pkt rx4).
  cbv beta iota. unfold events. cbn [snd].
  autorewrite with events. rewrite T1, T4.
  destruct (reported_quiet r1) as (-> & _ & _ & _ & -> & _).
  destruct (reported_quiet r2) as (-> & _ & _ & _ & -> & _).
  destruct (reported_quiet r3) as (-> & _ & _ & _ & -> & _).
  destruct (reported_quiet r4) as (-> & _ & _ & _ & -> & _).
  split; [reflexivity|]. rewrite !length_received.
  split; [reflexivity|]. split; [reflexivity|].
  rewrite <- (serial_nr_of_pkt_le32 host_order); [reflexivity| |].
  - rewrite length_received. simpl. lia.
  - apply received_is_byte, get_pkts_is_byte.
Qed.

(** C6. The set-device-id action sends one packet, with bytes 4, 2, the
    device id and zeros, and reads nothing; the set-serial-number action
    sends one packet, with bytes 6, 2, the four bytes of the serial number
    from the least significant one and zeros, and reads nothing. *)
Theorem set_actions_send_once host opts s st d :
  parsed opts s st -> selects host (uint8 (device_idx st)) d ->
  (action st = "i"%char ->
   exists id r,
     device_id st = Some id /\ is_byte id /\
     transfers (events (run bulk_out bulk_in host_order host opts s)) =
       [BulkOut d 0x1 ([4; 2; id] ++ replicate 13 0) r]) /\
  (action st = "s"%char ->
   exists sn r,
     serial_nr st = Some sn /\
     le32 (octet 0 sn) (octet 1 sn) (octet 2 sn) (octet 3 sn) = sn /\
     transfers (events (run bulk_out bulk_in host_order host opts s)) =
       [BulkOut d 0x1 ([6; 2; octet 0 sn; octet 1 sn; octet 2 sn; octet 3 sn]
                         ++ replicate 10 0) r]).
Proof.
  intros Hp Hsel. split; intros Ha.
  - destruct (run_selected host opts s st d Hp) as ((_ & Hi & _) & pre & w1 & Hpre & ->);
      [by rewrite Ha..|done|].
    destruct (Hi Ha) as (id & Hid & Hb). destruct Hpre as (T1 & _).
    destruct (perform_i bulk_out bulk_in host_order d st w1 id Ha Hid) as (r & s' & ->).
    exists id, r. split; [done|]. split; [unfold is_byte; lia|].
    cbv beta iota. unfold events. cbn [snd]. autorewrite with events. rewrite T1.
    destruct (reported_quiet r) as (-> & _). reflexivity.
  - destruct (run_selected host opts s st d Hp) as ((_ & _ & Hs) & pre & w1 & Hpre & ->);
      [by rewrite Ha..|done|].
    destruct (Hs Ha) as (sn & Hsn & Hb). destruct Hpre as (T1 & _).
    destruct (perform_s bulk_out bulk_in host_order d st w1 sn Ha Hsn) as (r & s' & ->).
    exists sn, r. split; [done|]. split; [by apply le32_octets|].
    cbv beta iota. unfold events. cbn [snd]. autorewrite with events. rewrite T1.
    destruct (reported_quiet r) as (-> & _). rewrite set_serial_nr_pkt_eq. reflexivity.
Qed.

(** C5. Every packet a run sends is one of the four command packets:
    sixteen bytes, a two-byte header, the payload of zero, one or four
    bytes, and zeros after it. *)
Theorem command_packets_padded host opts s :
  Forall (fun pkt => length pkt = 16%nat /\ command_packet pkt)
         (sent (events (run bulk_out bulk_in host_order host opts s))).
Proof.
  unfold run. eapply Forall_impl; [apply main_sent, initial_options_ok|].
  intros pkt H. split; [by apply command_packet_length|done].
Qed.

(** The "not found" path of [main], by the index as the enumeration
    receives it, an 8-bit value: if no catalog match reaches that index, in
    particular if there is no match at all, the run ends with the "not
    found" message on standard error and status 1, and it opens no device
    and makes no transfer. *)
Theorem device_not_found host opts s st :
  parsed opts s st -> action st <> zero ->
  init_result host = 0 -> 0 <= device_list_result host ->
  (length (matches (devices host)) <= Z.to_nat (uint8 (device_idx st)))%nat ->
  result (run bulk_out bulk_in host_order host opts s) = Exit 1 /\
  (exists t, events (run bulk_out bulk_in host_order host opts s)
             = t ++ [Output stderr MsgNotFound]) /\
  opened (events (run bulk_out bulk_in host_order host opts s)) = [] /\
  transfers (events (run bulk_out bulk_in host_order host opts s)) = [].
Proof.
  unfold parsed, run. intros Hp Hz Hinit Hlist Hlen.
  destruct (parse_options_spec opts initial_options {| errno := 0; usb := s |})
    as (o & e & t1 & E & (Q1 & _ & _ & Q4 & _) & _).
  rewrite E in Hp. unfold result in Hp. simpl in Hp. subst o.
  destruct (main_enumerates bulk_out bulk_in host_order host opts _ st _ t1 E Hz Hinit Hlist)
    as (o & w' & rest & -> & Ho & Hnone).
  rewrite (proj2 (lookup_ge_None _ _) Hlen) in Ho, Hnone.
  destruct (Hnone I) as (-> & Ht & tb & ->).
  unfold result, events. cbn [fst snd]. split; [done|].
  split; [exists (t1 ++ tb); by rewrite app_assoc|].
  autorewrite with events in *. rewrite Q1, Q4, Ho, Ht. done.
Qed.

(** C10. The value of -d is a 32-bit unsigned number, and the enumeration
    takes it through an 8-bit parameter: the device a run opens is the
    catalog match at index [v mod 256], if there is one, and none
    otherwise. *)
Theorem device_index_wraps host opts s st :
  parsed opts s st -> action st <> zero ->
  init_result host = 0 -> 0 <= device_list_result host ->
  0 <= device_idx st < 2 ^ 32 /\
  opened (events (run bulk_out bulk_in host_order host opts s)) =
    option_list (fst <$> (matches (devices host) !! Z.to_nat (device_idx st mod 256))).
Proof.
  unfold parsed, run. intros Hp Hz Hinit Hlist.
  destruct (parse_options_spec opts initial_options {| errno := 0; usb := s |})
    as (o & e & t1 & E & (_ & _ & _ & Q4 & _) & _ & Hok).
  rewrite E in Hp. unfold result in Hp. simpl in Hp. subst o.
  destruct (Hok st eq_refl initial_options_ok) as (Hidx & _).
  split; [done|].
  destruct (main_enumerates bulk_out bulk_in host_order host opts _ st _ t1 E Hz Hinit Hlist)
    as (o & w' & rest & -> & Ho & _).
  unfold events. cbn [snd]. autorewrite with events. rewrite Q4, Ho. reflexivity.
Qed.

(** C3 (amended).  The value of the -i argument is accepted as
    the device id when it is below 255 ([UCHAR_MAX]) and rejected, with a
    message on standard error and exit status 1, when it is 255 or above. *)
Theorem device_id_bound (arg : string) (rest : list option_arg) (st : options) w v w' t :
  parse_long arg w = (Ret (Some v), w', t) ->
  (v < 255 ->
   parse_options (opt "i" arg :: rest) st w =
     parse_options rest
       {| device_idx := device_idx st; device_id := Some v;
          serial_nr := serial_nr st; action := "i" |} w') /\
  (255 <= v ->
   parse_options (opt "i" arg :: rest) st w =
     (Exit 1, w', [Output stderr (MsgInvalidDeviceId v 255)])).
Proof.
  intros E.
  destruct (parse_long_spec arg w) as (v0 & e & t0 & E0 & _ & Hv).
  rewrite E in E0. injection E0 as <- -> ->.
  destruct (Hv v eq_refl) as (Hr & ->).
  unfold opt. cbn [parse_options]. cbv [Ascii.eqb Bool.eqb]. cbv iota.
  rewrite (bind_Ret _ _ _ _ _ _ E). unfold UCHAR_MAX.
  split; intros Hb.
  - destruct (Z.leb_spec 255 v); [lia|].
    unfold uint8. rewrite Z.mod_small by lia.
    destruct (parse_options rest _ _) as [[? ?] ?]. reflexivity.
  - destruct (Z.leb_spec 255 v); [|lia]. reflexivity.
Qed.
End Runs.

(** ** Concrete runs *)

Lemma selects_one_pcan : selects one_pcan 0 (pcan_usb 1 5).
Proof. repeat split. simpl. lia. Defined.

Lemma query_exchanges_simulated :
  exists r1 r2 p2 r3 r4 p4,
    transfers (events (run sim_out sim_in BigEndian one_pcan [opt "q" ""] sim_start)) =
      [BulkOut (pcan_usb 1 5) 0x1 ([4; 1] ++ replicate 14 0) r1;
       BulkIn (pcan_usb 1 5) 0x81 r2 p2;
       BulkOut (pcan_usb 1 5) 0x1 ([6; 1] ++ replicate 14 0) r3;
       BulkIn (pcan_usb 1 5) 0x81 r4 p4] /\
    length p2 = 16%nat /\ length p4 = 16%nat /\
    values (events (run sim_out sim_in BigEndian one_pcan [opt "q" ""] sim_start)) =
      [MsgHex "device_id" (p2 !!! 2%nat);
       MsgHex "serial_number"
         (le32 (p4 !!! 2%nat) (p4 !!! 3%nat) (p4 !!! 4%nat) (p4 !!! 5%nat))].
Proof.
  apply (query_exchanges sim_out sim_in BigEndian one_pcan [opt "q" ""] sim_start
           query_options (pcan_usb 1 5)).
  - reflexivity.
  - reflexivity.
  - exact selects_one_pcan.
Defined.

Example query_simulated_values :
  values (events (run sim_out sim_in BigEndian one_pcan [opt "q" ""] sim_start)) =
    [MsgHex "device_id" 0x2a; MsgHex "serial_number" 0x01020304].
Proof. vm_compute. reflexivity. Qed.

Lemma set_device_id_simulated :
  exists id r,
    device_id set_id_options = Some id /\ is_byte id /\
    transfers (events (run sim_out sim_in LittleEndian one_pcan [opt "i" "0x2b"] sim_start)) =
      [BulkOut (pcan_usb 1 5) 0x1 ([4; 2; id] ++ replicate 13 0) r].
Proof.
  refine (proj1 (set_actions_send_once sim_out sim_in LittleEndian one_pcan
                   [opt "i" "0x2b"] sim_start set_id_options (pcan_usb 1 5)
                   _ selects_one_pcan) eq_refl).
  reflexivity.
Defined.

Example set_actions_simulated :
  transfers (events (run sim_out sim_in LittleEndian one_pcan [opt "i" "0x2b"] sim_start)) =
    [BulkOut (pcan_usb 1 5) 0x1 ([4; 2; 0x2b] ++ replicate 13 0) 0] /\
  transfers (events (run sim_out sim_in BigEndian one_pcan [opt "s" "0x01020304"] sim_start)) =
    [BulkOut (pcan_usb 1 5) 0x1 ([6; 2; 0x04; 0x03; 0x02; 0x01] ++ replicate 10 0) 0].
Proof. split; vm_compute; reflexivity. Qed.

(** A device that fails every transfer: the query still prints both
    values, zero from the request buffer, after four error lines. *)
Example dead_device_output :
  printed stdout (events (run dead_out dead_in LittleEndian one_pcan [opt "q" ""] ())) =
    [MsgString "iManufacturer" "PEAK-System Technik GmbH"; MsgString "iProduct" "PCAN-USB";
     MsgNewline;
     MsgTransferError (-7); MsgTransferError (-7); MsgHex "device_id" 0;
     MsgTransferError (-7); MsgTransferError (-7); MsgHex "serial_number" 0].
Proof. vm_compute. reflexivity. Qed.

(** C8.  The program at [-d 256 -q] with one PCAN-USB attached: option
    parsing stores the index 256 and no catalog match reaches index 256, yet
    the run does not end with "not found".  The call of [browse_devices]
    narrows the index to 8 bits, so the run opens the match at index 0,
    queries it and ends with status 0. *)
Lemma index_256_not_rejected :
  parsed [opt "d" "256"; opt "q" ""] sim_start
    {| device_idx := 256; device_id := None; serial_nr := None; action := "q" |} /\
  (length (matches (devices one_pcan)) <= 256)%nat /\
  result (run sim_out sim_in LittleEndian one_pcan [opt "d" "256"; opt "q" ""] sim_start)
    = Ret 0 /\
  values (events (run sim_out sim_in LittleEndian one_pcan [opt "d" "256"; opt "q" ""] sim_start))
    = [MsgHex "device_id" 0x2a; MsgHex "serial_number" 0x01020304].
Proof.
  split; [reflexivity|]. split; [simpl; lia|]. split; vm_compute; reflexivity.
Qed.

Lemma no_device_not_found :
  result (run sim_out sim_in LittleEndian no_pcan [opt "q" ""] sim_start) = Exit 1 /\
  (exists t, events (run sim_out sim_in LittleEndian no_pcan [opt "q" ""] sim_start)
             = t ++ [Output stderr MsgNotFound]) /\
  opened (events (run sim_out sim_in LittleEndian no_pcan [opt "q" ""] sim_start)) = [] /\
  transfers (events (run sim_out sim_in LittleEndian no_pcan [opt "q" ""] sim_start)) = [].
Proof.
  apply (device_not_found sim_out sim_in LittleEndian no_pcan [opt "q" ""] sim_start
           query_options).
  - reflexivity.
  - discriminate.
  - reflexivity.
  - simpl. lia.
  - simpl. lia.
Defined.

Lemma index_256_opens_first :
  0 <= 256 < 2 ^ 32 /\
  opened (events (run sim_out sim_in LittleEndian two_pcan [opt "d" "256"; opt "q" ""] sim_start))
    = [pcan_usb 1 5].
Proof.
  apply (device_index_wraps sim_out sim_in LittleEndian two_pcan
           [opt "d" "256"; opt "q" ""] sim_start
           {| device_idx := 256; device_id := None; serial_nr := None; action := "q" |}).
  - reflexivity.
  - discriminate.
  - reflexivity.
  - simpl. lia.
Defined.

(** Counterexample to C3 with the bound 256: the argument 255 is rejected. *)
Lemma device_id_255_rejected :
  run sim_out sim_in LittleEndian one_pcan [opt "i" "255"] sim_start =
    (Exit 1, start sim_start, [Output stderr (MsgInvalidDeviceId 255 255)]).
Proof. reflexivity. Qed.

Lemma device_id_254_accepted :
  254 < 255 /\
  parse_options [opt "i" "254"] initial_options (start sim_start) =
    (Ret {| device_idx := 0; device_id := Some 254; serial_nr := None; action := "i" |},
     start sim_start, []).
Proof.
  split; [lia|].
  refine (proj1 (device_id_bound "254" [] initial_options (start sim_start) 254
                   (start sim_start) [] _) _); [reflexivity|lia].
Defined.

(** Counterexample to C4 without the open: listing opens the match at the
    requested index. *)
Lemma list_mode_opens_device :
  opened (events (browse_devices one_pcan 0 true (start sim_start))) = [pcan_usb 1 5] /\
  opened (events (run sim_out sim_in LittleEndian one_pcan [opt "l" ""] sim_start))
    = [pcan_usb 1 5].
Proof. split; reflexivity. Qed.

Lemma list_two_pcan :
  (forall (k : nat) m, matches (devices two_pcan) !! k = Some m ->
     Output stdout (MsgListEntry (Z.of_nat k) (idVendor m.1) (idProduct m.1)
                      (bus_number m.1) (device_address m.1) (name m.2))
       ∈ events (browse_devices two_pcan 1 true (start sim_start))) /\
  opened (events (browse_devices two_pcan 1 true (start sim_start))) = [pcan_usb 2 7].
Proof.
  apply (list_mode_prints_and_opens two_pcan 1 (start sim_start)); simpl; lia.
Defined.

Lemma listing_two_pcan :
  listing (events (browse_devices two_pcan 0 true (start sim_start))) =
    [MsgListEntry 0 0x0c72 0x000c 1 5 "PCAN-USB"; MsgListEntry 1 0x0c72 0x000c 2 7 "PCAN-USB"] /\
  (forall m, m ∈ matches (devices two_pcan) ->
     supported m.1 = Some m.2 /\ in_catalog m.1 = true) /\
  fst <$> matches (devices two_pcan) = List.filter in_catalog (enumerated (devices two_pcan)) /\
  (exists rest,
     devices two_pcan = enumerated (devices two_pcan) ++ rest /\
     Forall (fun d => 0 <= descriptor_result d) (enumerated (devices two_pcan)) /\
     (forall bad, head rest = Some bad -> descriptor_result bad < 0)) /\
  (Forall (fun d => 0 <= descriptor_result d) (devices two_pcan) ->
   fst <$> matches (devices two_pcan) = List.filter in_catalog (devices two_pcan)).
Proof.
  apply (browse_devices_indices two_pcan 0 (start sim_start)). simpl. lia.
Defined.

(** Counterexample to C7 as stated: the device list holds two devices of
    the catalog, the descriptor of the device between them cannot be read,
    and the listing has the line of the first only. *)
Lemma unreadable_host_match_not_listed :
  0 <= device_list_result unreadable_host /\
  pcan_usb 2 7 ∈ devices unreadable_host /\
  in_catalog (pcan_usb 2 7) = true /\
  listing (events (browse_devices unreadable_host 0 true (start sim_start))) =
    [MsgListEntry 0 0x0c72 0x000c 1 5 "PCAN-USB"] /\
  ~ (exists i nm,
       MsgListEntry i 0x0c72 0x000c 2 7 nm
         ∈ listing (events (browse_devices unreadable_host 0 true (start sim_start)))).
Proof.
  split; [simpl; lia|]. split; [|split; [reflexivity|split; [reflexivity|]]].
  - apply list_elem_of_lookup. by exists 2%nat.
  - intros (i & nm & H).
    change (listing (events (browse_devices unreadable_host 0 true (start sim_start))))
      with [MsgListEntry 0 0x0c72 0x000c 1 5 "PCAN-USB"] in H.
    apply list_elem_of_singleton in H. discriminate H.
Qed.

(** Arguments around the bound of -i, in decimal and in hexadecimal. *)
Example device_id_arguments :
  result (run sim_out sim_in LittleEndian one_pcan [opt "i" "256"] sim_start) = Exit 1 /\
  result (run sim_out sim_in LittleEndian one_pcan [opt "i" "0xff"] sim_start) = Exit 1 /\
  result (run sim_out sim_in LittleEndian one_pcan [opt "i" "0xfe"] sim_start) = Ret 0 /\
  result (run sim_out sim_in LittleEndian one_pcan [opt "i" "0"] sim_start) = Ret 0.
Proof. repeat split. Qed.

(** A serial number set from a big-endian host is the one a little-endian
    host queries from the device afterwards. *)
Example set_then_query :
  let after_set :=
    usb (run sim_out sim_in BigEndian one_pcan [opt "s" "0x01020304"]
           {| sim_id := 0; sim_serial := [0; 0; 0; 0]; sim_reply := [] |}).1.2 in
  values (events (run sim_out sim_in LittleEndian one_pcan [opt "q" ""] after_set)) =
    [MsgHex "device_id" 0; MsgHex "serial_number" 0x01020304].
Proof. vm_compute. reflexivity. Qed.

(** * Further properties *)

(** ** Numerals *)

Lemma digit_value_digit_char d : 0 <= d < 10 -> digit_value (digit_char d) = Some d.
Proof.
  intros H.
  assert (d = 0 \/ d = 1 \/ d = 2 \/ d = 3 \/ d = 4 \/ d = 5 \/ d = 6 \/ d = 7 \/ d = 8 \/ d = 9)
    as Hd by lia.
  repeat destruct Hd as [->|Hd]; try subst d; reflexivity.
Qed.

Lemma digit_value_hex_char u d : 0 <= d < 16 -> digit_value (hex_char (u, d)) = Some d.
Proof.
  intros H.
  assert (d = 0 \/ d = 1 \/ d = 2 \/ d = 3 \/ d = 4 \/ d = 5 \/ d = 6 \/ d = 7 \/ d = 8 \/
          d = 9 \/ d = 10 \/ d = 11 \/ d = 12 \/ d = 13 \/ d = 14 \/ d = 15) as Hd by lia.
  repeat destruct Hd as [->|Hd]; try subst d; destruct u; reflexivity.
Qed.

Lemma strtoll_digits_numeral {A} (char : A -> ascii) (val : A -> Z) base ds rest acc n :
  Forall (fun d => digit_value (char d) = Some (val d) /\ val d < base) ds ->
  stops base rest ->
  strtoll_digits base (numeral char ds rest) acc n =
    (foldl (fun a d => a * base + d) acc (val <$> ds), (n + length ds)%nat).
Proof.
  intros Hds Hrest. revert acc n.
  induction Hds as [|d ds [Hd Hlt] _ IH]; intros acc n; simpl.
  - rewrite Nat.add_0_r. destruct rest as [|c r]; [done|]. simpl in *.
    destruct (digit_value c) as [x|]; [|done].
    destruct (Z.ltb_spec x base); [lia|done].
  - rewrite Hd. destruct (Z.ltb_spec (val d) base); [|lia].
    rewrite IH. f_equal. lia.
Qed.

Lemma strtoll_10 arg :
  strtoll arg 10 =
    (let '(v, n) := strtoll_digits 10 arg 0 0%nat in
     if LLONG_MAX <? v then (LLONG_MAX, n, true) else (v, n, false)).
Proof.
  unfold strtoll.
  destruct arg as [|[[] [] [] [] [] [] [] []] [|x r]]; reflexivity.
Qed.

Lemma strtoll_16 rest :
  strtoll (String "0" (String "x" rest)) 16 =
    (let '(v, n) := strtoll_digits 16 rest 0 0%nat in
     let endptr := if Nat.eqb n 0 then 1%nat else (2 + n)%nat in
     if LLONG_MAX <? v then (LLONG_MAX, endptr, true) else (v, endptr, false)).
Proof. reflexivity. Qed.

Section Numerals.
Context {device_state : Type}.
Implicit Types (w : @world device_state).

Lemma parse_long_base_10 arg w c :
  (exists r, arg = String c r) ->
  Ascii.leb "0" c && Ascii.leb c "9" = true ->
  (Ascii.eqb c "0" && Ascii.eqb (match arg with String _ (String x _) => x | _ => zero end) "x"
   = false) ->
  parse_long arg w =
    (let '(val, endptr, range) := strtoll arg 10 in
     let e := if range then ERANGE else errno w in
     let w' := {| errno := e; usb := usb w |} in
     if (e =? ERANGE) && ((val =? LLONG_MAX) || (val =? LLONG_MIN)) then
       (Ret None, w', [Output stderr MsgRangeError])
     else if negb (e =? 0) && (val =? 0) then
       (Ret None, w', [Output stderr MsgNoDigits])
     else if Nat.eqb endptr 0 then
       (Ret None, w', [Output stderr MsgNoDigits])
     else
       (Ret (Some (uint32 val)), w', [])).
Proof.
  intros [r ->] H1 H2. unfold parse_long. rewrite H1.
  cbv beta iota. rewrite H2. reflexivity.
Qed.

(** A decimal numeral, whatever follows it. *)
Lemma parse_long_decimal ds rest w :
  errno w = 0 -> ds <> [] -> Forall (fun d => 0 <= d < 10) ds -> stops 10 rest ->
  (ds = [0] -> forall r, rest <> String "x" r) ->
  parse_long (numeral digit_char ds rest) w =
    if digits_value 10 ds <=? LLONG_MAX
    then (Ret (Some (digits_value 10 ds mod 2 ^ 32)), w, [])
    else (Ret None, {| errno := ERANGE; usb := usb w |}, [Output stderr MsgRangeError]).
Proof.
  intros He Hne Hds Hrest Hx.
  destruct ds as [|d0 ds']; [done|]. clear Hne.
  pose proof (Forall_inv Hds) as Hd0. cbv beta in Hd0.
  rewrite (parse_long_base_10 _ w (digit_char d0)).
  - rewrite strtoll_10.
    rewrite (strtoll_digits_numeral digit_char id 10 (d0 :: ds') rest 0 0).
    + rewrite list_fmap_id. fold (digits_value 10 (d0 :: ds')).
      set (v := digits_value 10 (d0 :: ds')) in *.
      destruct (Z.leb_spec v LLONG_MAX) as [Hle|Hgt].
      * destruct (Z.ltb_spec LLONG_MAX v); [lia|]. rewrite He. simpl.
        destruct w as [e s]. simpl in *. subst e. reflexivity.
      * destruct (Z.ltb_spec LLONG_MAX v); [|lia]. reflexivity.
    + eapply Forall_impl; [exact Hds|]. intros d Hd. cbv beta in Hd.
      split; [by apply digit_value_digit_char|unfold id; lia].
    + done.
  - eauto.
  - assert (d0 = 0 \/ d0 = 1 \/ d0 = 2 \/ d0 = 3 \/ d0 = 4 \/ d0 = 5 \/ d0 = 6 \/ d0 = 7 \/
            d0 = 8 \/ d0 = 9) as Hd by lia.
    repeat destruct Hd as [->|Hd]; try subst d0; reflexivity.
  - destruct (Z.eq_dec d0 0) as [->|Hnz].
    2: { assert (d0 = 1 \/ d0 = 2 \/ d0 = 3 \/ d0 = 4 \/ d0 = 5 \/ d0 = 6 \/ d0 = 7 \/
                 d0 = 8 \/ d0 = 9) as Hd by lia.
         repeat destruct Hd as [->|Hd]; try subst d0; reflexivity. }
    destruct ds' as [|d1 ds''].
    + simpl. destruct rest as [|c r]; [reflexivity|].
      destruct (Ascii.eqb_spec c "x") as [->|]; [|reflexivity].
      exfalso. by eapply Hx.
    + simpl. pose proof (Forall_inv (Forall_inv_tail Hds)) as Hd1. cbv beta in Hd1.
      assert (d1 = 0 \/ d1 = 1 \/ d1 = 2 \/ d1 = 3 \/ d1 = 4 \/ d1 = 5 \/ d1 = 6 \/ d1 = 7 \/
              d1 = 8 \/ d1 = 9) as Hd by lia.
      repeat destruct Hd as [->|Hd]; try subst d1; reflexivity.
Qed.

Lemma parse_long_base_16 r w :
  parse_long (String "0" (String "x" r)) w =
    (let '(val, endptr, range) := strtoll (String "0" (String "x" r)) 16 in
     let e := if range then ERANGE else errno w in
     let w' := {| errno := e; usb := usb w |} in
     if (e =? ERANGE) && ((val =? LLONG_MAX) || (val =? LLONG_MIN)) then
       (Ret None, w', [Output stderr MsgRangeError])
     else if negb (e =? 0) && (val =? 0) then
       (Ret None, w', [Output stderr MsgNoDigits])
     else if Nat.eqb endptr 0 then
       (Ret None, w', [Output stderr MsgNoDigits])
     else
       (Ret (Some (uint32 val)), w', [])).
Proof. reflexivity. Qed.

(** A hexadecimal numeral after [0x], in either case, whatever follows it;
    without a digit after [0x] the value is that of the [0]. *)
Lemma parse_long_hexadecimal (ds : list (bool * Z)) rest w :
  errno w = 0 -> Forall (fun h => 0 <= h.2 < 16) ds -> stops 16 rest ->
  parse_long (String "0" (String "x" (numeral hex_char ds rest))) w =
    if digits_value 16 (snd <$> ds) <=? LLONG_MAX
    then (Ret (Some (digits_value 16 (snd <$> ds) mod 2 ^ 32)), w, [])
    else (Ret None, {| errno := ERANGE; usb := usb w |}, [Output stderr MsgRangeError]).
Proof.
  intros He Hds Hrest.
  rewrite parse_long_base_16, strtoll_16.
  rewrite (strtoll_digits_numeral hex_char snd 16 ds rest 0 0).
  - fold (digits_value 16 (snd <$> ds)).
    set (v := digits_value 16 (snd <$> ds)) in *.
    destruct (Z.leb_spec v LLONG_MAX) as [Hle|Hgt].
    + destruct (Z.ltb_spec LLONG_MAX v); [lia|]. rewrite He.
      destruct w as [e s]. simpl in *. subst e.
      destruct (length ds); reflexivity.
    + destruct (Z.ltb_spec LLONG_MAX v); [|lia]. reflexivity.
  - eapply Forall_impl; [exact Hds|]. intros [u d] Hd. cbv beta in Hd. simpl in Hd.
    split; [by apply digit_value_hex_char|simpl; lia].
  - done.
Qed.
End Numerals.

(** ** Option parsing, by its outcome *)

Section OptionOutcomes.
Context {device_state : Type}.
Implicit Types (w : @world device_state).

Lemma strtoll_range arg base val endptr :
  strtoll arg base = (val, endptr, true) -> val = LLONG_MAX.
Proof.
  unfold strtoll.
  destruct (match arg with String _ _ => _ | _ => _ end) as [prefixed digits].
  destruct (strtoll_digits base digits 0 0) as [v n].
  destruct (LLONG_MAX <? v); intros [=]; done.
Qed.

Lemma parse_long_some arg w v w' t :
  parse_long arg w = (Ret (Some v), w', t) -> w' = w /\ t = [].
Proof.
  unfold parse_long. destruct (_ && _); [|intros [=]].
  assert (forall base,
            (let '(val, endptr, range) := strtoll arg base in
             let e := if range then ERANGE else errno w in
             let w0 := {| errno := e; usb := usb w |} in
             if (e =? ERANGE) && ((val =? LLONG_MAX) || (val =? LLONG_MIN))
             then (Ret None, w0, [Output stderr MsgRangeError])
             else if negb (e =? 0) && (val =? 0)
                  then (Ret None, w0, [Output stderr MsgNoDigits])
                  else if Nat.eqb endptr 0
                       then (Ret None, w0, [Output stderr MsgNoDigits])
                       else (Ret (Some (uint32 val)), w0, []))
            = (Ret (Some v), w', t) -> w' = w /\ t = []) as H.
  { intros base. destruct (strtoll arg base) as [[val endptr] range] eqn:Es.
    destruct range.
    - apply strtoll_range in Es as ->. intros [=].
    - destruct w as [e s]. cbv beta iota zeta. simpl.
      repeat match goal with
             | |- context [if ?b then _ else _] => destruct b
             end; intros [=]; subst; done. }
  destruct (_ && _); apply H.
Qed.

Lemma parse_long_none arg w w' t :
  parse_long arg w = (Ret None, w', t) -> t <> [] /\ on_stderr t.
Proof.
  unfold parse_long, on_stderr. destruct (_ && _).
  - destruct (if _ && _ then strtoll arg 16 else strtoll arg 10) as [[val endptr] range].
    cbv beta iota zeta.
    repeat match goal with
           | |- context [if ?b then _ else _] => destruct b
           end; intros [=]; subst; (split; [done|]); repeat constructor; eauto.
  - intros [=]. subst. split; [done|]. repeat constructor. eauto.
Qed.

(** Option parsing that completes has printed nothing and left the world as
    it was; the action is that of the last action option; without -d the
    device index is that of [st]. *)
Lemma parse_options_Ret opts st w st' w' t :
  parse_options opts st w = (Ret st', w', t) ->
  w' = w /\ t = [] /\
  action st' = foldl (fun a o => if is_action o.1 then o.1 else a) (action st) opts /\
  (Forall (fun o => o.1 <> "d"%char) opts -> device_idx st' = device_idx st).
Proof.
  revert st w. induction opts as [|[c arg] rest IH]; intros st w.
  - intros [=]. subst. done.
  - simpl parse_options.
    repeat match goal with
           | |- context [if Ascii.eqb c ?x then _ else _] =>
               destruct (Ascii.eqb_spec c x) as [->|?]
           end.
    + intros [=].
    + destruct (parse_long_spec arg w) as (v & e & t0 & E & _ & _).
      unfold bind at 1. rewrite E. destruct v as [v|]; [|intros [=]].
      apply parse_long_some in E as [Ew ->].
      destruct (parse_options rest _ _) as [[o w2] t2] eqn:E2. destruct o; intros [=]; subst.
      rewrite Ew in E2. apply IH in E2 as (-> & -> & Ha & _).
      repeat split; [done|]. intros Hd. by apply Forall_inv in Hd.
    + destruct (parse_long_spec arg w) as (v & e & t0 & E & _ & _).
      unfold bind at 1. rewrite E. destruct v as [v|]; [|intros [=]].
      apply parse_long_some in E as [Ew ->].
      destruct (parse_options rest _ _) as [[o w2] t2] eqn:E2. destruct o; intros [=]; subst.
      rewrite Ew in E2. apply IH in E2 as (-> & -> & Ha & Hi).
      repeat split; [done|]. intros Hd. apply Forall_inv_tail in Hd. by apply Hi.
    + destruct (parse_long_spec arg w) as (v & e & t0 & E & _ & _).
      unfold bind at 1. rewrite E. destruct v as [v|]; [|intros [=]].
      apply parse_long_some in E as [Ew ->].
      destruct (UCHAR_MAX <=? v); [intros [=]|].
      destruct (parse_options rest _ _) as [[o w2] t2] eqn:E2. destruct o; intros [=]; subst.
      rewrite Ew in E2. apply IH in E2 as (-> & -> & Ha & Hi).
      repeat split; [done|]. intros Hd. apply Forall_inv_tail in Hd. by apply Hi.
    + intros E2. apply IH in E2 as (-> & -> & Ha & Hi).
      repeat split; [done|]. intros Hd. apply Forall_inv_tail in Hd. by apply Hi.
    + intros E2. apply IH in E2 as (-> & -> & Ha & Hi).
      repeat split; [done|]. intros Hd. apply Forall_inv_tail in Hd. by apply Hi.
    + intros [=].
Qed.

(** Option parsing that stops: -h ends it with status 0 and the help text
    on standard output; everything else ends it with status 1 and messages
    on standard error only. *)
Lemma parse_options_Exit opts st w c w' t :
  parse_options opts st w = (Exit c, w', t) ->
  (c = 0 /\ t = [Output stdout MsgHelp]) \/ (c = 1 /\ t <> [] /\ on_stderr t).
Proof.
  revert st w. induction opts as [|[o arg] rest IH]; intros st w.
  - intros [=].
  - simpl parse_options.
    repeat match goal with
           | |- context [if Ascii.eqb o ?x then _ else _] =>
               destruct (Ascii.eqb_spec o x) as [->|?]
           end.
    + intros [=]. subst. by left.
    + destruct (parse_long_spec arg w) as (v & e & t0 & E & _ & _).
      unfold bind at 1. rewrite E. destruct v as [v|].
      * apply parse_long_some in E as [Ew ->].
        destruct (parse_options rest _ _) as [[o w2] t2] eqn:E2.
        destruct o; intros [=]; subst. by apply IH in E2.
      * apply parse_long_none in E as [Hne Herr]. intros [=]. subst. right.
        rewrite app_nil_r. done.
    + destruct (parse_long_spec arg w) as (v & e & t0 & E & _ & _).
      unfold bind at 1. rewrite E. destruct v as [v|].
      * apply parse_long_some in E as [Ew ->].
        destruct (parse_options rest _ _) as [[o w2] t2] eqn:E2.
        destruct o; intros [=]; subst. by apply IH in E2.
      * apply parse_long_none in E as [Hne Herr]. intros [=]. subst. right.
        rewrite app_nil_r. done.
    + destruct (parse_long_spec arg w) as (v & e & t0 & E & _ & _).
      unfold bind at 1. rewrite E. destruct v as [v|].
      * apply parse_long_some in E as [Ew ->].
        destruct (UCHAR_MAX <=? v).
        { intros [=]. subst. right. split; [done|]. split; [done|].
          repeat constructor. eauto. }
        destruct (parse_options rest _ _) as [[o w2] t2] eqn:E2.
        destruct o; intros [=]; subst. by apply IH in E2.
      * apply parse_long_none in E as [Hne Herr]. intros [=]. subst. right.
        rewrite app_nil_r. done.
    + apply IH.
    + apply IH.
    + intros [=]. subst. right. split; [done|]. split; [done|].
      repeat constructor; eauto.
Qed.
End OptionOutcomes.

(** ** The calls into libusb *)

Lemma usb_calls_app t1 t2 : usb_calls (t1 ++ t2) = usb_calls t1 ++ usb_calls t2.
Proof. apply List.filter_app. Qed.

Lemma open_errors_app t1 t2 : open_errors (t1 ++ t2) = open_errors t1 ++ open_errors t2.
Proof. unfold open_errors. rewrite printed_app. apply List.filter_app. Qed.

#[local] Hint Rewrite usb_calls_app open_errors_app : events.

Lemma on_stderr_calls t : on_stderr t -> usb_calls t = [] /\ printed stdout t = [].
Proof.
  induction 1 as [|e t [m ->] _ [IH1 IH2]]; [done|].
  split; [exact IH1|exact IH2].
Qed.

Lemma reported_calls r : usb_calls (reported r) = [].
Proof. unfold reported. by destruct (r =? LIBUSB_SUCCESS). Qed.

Section Shape.
Context {device_state : Type}.
Variable bulk_out : usb_device -> Z -> device_state -> packet -> device_state * Z.
Variable bulk_in : usb_device -> Z -> device_state -> device_state * (Z * list Z).
Variable host_order : byte_order.
Implicit Types (w : @world device_state) (s : device_state).

(** The libusb calls and the open errors of the enumeration loop. *)
Lemma browse_loop_calls devs idx l i ctx w :
  exists t ctx',
    browse_loop devs idx l i ctx w = (Ret ctx', w, t) /\
    usb_calls t = open_call <$> option_list (pick (matches devs) i idx) /\
    open_errors t =
      match pick (matches devs) i idx with
      | Some m => if open_result m.1 <? 0 then [MsgOpenError (open_result m.1)] else []
      | None => []
      end.
Proof.
  revert i ctx. induction devs as [|d rest IH]; intros i ctx.
  - exists [], ctx. unfold pick. simpl. by destruct (idx <? i).
  - simpl browse_loop. unfold matches. simpl enumerated.
    destruct (descriptor_result d <? 0) eqn:Hd.
    { eexists _, ctx. split; [reflexivity|]. unfold pick. simpl. by destruct (idx <? i). }
    simpl omap. fold (matches rest).
    destruct (supported d) as [p|] eqn:Hs; [|apply IH].
    rewrite pick_cons.
    destruct (i =? idx) eqn:Hi.
    + destruct (IH (i + 1) {| device := Some d;
                 dev_handle := if open_result d =? 0 then Some d else dev_handle ctx;
                 ctx_pcan_type := Some p |}) as (t & ctx' & E & Hc & He).
      assert (pick (matches rest) (i + 1) idx = None) as Hp.
      { unfold pick. apply Z.eqb_eq in Hi. destruct (Z.ltb_spec idx (i + 1)); [done|lia]. }
      rewrite Hp in *.
      exists ((if l then [Output stdout (list_entry i (d, p))] else []) ++
              [UsbOpen d (open_result d)] ++
              (if open_result d <? 0 then [Output stdout (MsgOpenError (open_result d))] else []) ++
              t), ctx'.
      split.
      { unfold bind, when, printf, fprintf, emit, libusb_open, ret; simpl.
        destruct l, (open_result d <? 0); simpl; rewrite E; reflexivity. }
      autorewrite with events. rewrite Hc, He.
      destruct l, (open_result d <? 0) eqn:Ho; simpl; rewrite ?Ho; done.
    + destruct (IH (i + 1) ctx) as (t & ctx' & E & Hc & He).
      exists ((if l then [Output stdout (list_entry i (d, p))] else []) ++ t), ctx'.
      split.
      { unfold bind, when, printf, fprintf, emit, ret; simpl.
        destruct l; simpl; rewrite E; reflexivity. }
      autorewrite with events. rewrite Hc, He. destruct l; done.
Qed.

(** Without the list flag the enumeration prints nothing on standard output
    but the error of an open. *)
Lemma browse_loop_stdout devs idx i ctx w :
  exists t ctx',
    browse_loop devs idx false i ctx w = (Ret ctx', w, t) /\
    printed stdout t = open_errors t.
Proof.
  revert i ctx. induction devs as [|d rest IH]; intros i ctx.
  - by exists [], ctx.
  - simpl. destruct (descriptor_result d <? 0).
    { eexists _, _. split; reflexivity. }
    destruct (supported d) as [p|]; [|apply IH].
    unfold bind, when, printf, fprintf, emit, libusb_open, ret. simpl.
    destruct (i =? idx), (open_result d <? 0); simpl;
      match goal with
      | |- context [browse_loop rest idx false ?j ?c w] =>
          destruct (IH j c) as (t & ctx' & -> & Hs)
      end; eexists _, _; (split; [reflexivity|]);
      unfold open_errors, printed in *; simpl;
      first [exact Hs | exact (f_equal (cons _) Hs)].
Qed.

Lemma printed_stdout_fmap ms : printed stdout (Output stdout <$> ms) = ms.
Proof. induction ms as [|m ms IH]; [done|]. exact (f_equal (cons m) IH). Qed.

(** The calls before the action, for a device that delivers its
    descriptors. *)
Lemma prepare_strings d w :
  0 <= descriptor_result d -> config_descriptor_result d = 0 ->
  prepare d d w =
    (Ret (), w,
     [UsbClaimInterface d; UsbResetDevice d] ++ (Output stdout <$> descriptor_strings d)).
Proof.
  intros Hd Hc. unfold prepare, descriptor_strings, bind, when, printf, fprintf, emit, exit, ret.
  simpl. destruct (Z.ltb_spec (descriptor_result d) 0); [lia|]. rewrite Hc. simpl.
  destruct (iManufacturer d =? 0), (iProduct d =? 0); reflexivity.
Qed.

(** The action block returns, and its libusb calls are its transfers, all
    on the opened device and its two endpoints. *)
Lemma perform_calls h st w :
  options_ok st ->
  exists w' t,
    perform bulk_out bulk_in host_order h st w = (Ret (), w', t) /\
    usb_calls t = transfers t /\ Forall (on_endpoints h) t /\
    opened t = [] /\ listing t = [] /\ open_errors t = [].
Proof.
  intros (_ & Hi & Hs).
  destruct (Ascii.eqb_spec (action st) "i") as [Ei|Ni].
  { destruct (Hi Ei) as (id & Hid & Hb).
    destruct (perform_i bulk_out bulk_in host_order h st w id Ei Hid) as (r & s & ->).
    eexists _, _. split; [reflexivity|].
    unfold reported. destruct (r =? LIBUSB_SUCCESS); repeat split; repeat constructor. }
  destruct (Ascii.eqb_spec (action st) "s") as [Es|Ns].
  { destruct (Hs Es) as (sn & Hsn & Hb).
    destruct (perform_s bulk_out bulk_in host_order h st w sn Es Hsn) as (r & s & ->).
    eexists _, _. split; [reflexivity|].
    unfold reported. destruct (r =? LIBUSB_SUCCESS); repeat split; repeat constructor. }
  destruct (Ascii.eqb_spec (action st) "q") as [Eq|Nq].
  { destruct (perform_q bulk_out bulk_in host_order h st w Eq)
      as (r1 & r2 & rx2 & r3 & r4 & rx4 & s & ->).
    eexists _, _. split; [reflexivity|].
    unfold reported.
    destruct (r1 =? LIBUSB_SUCCESS), (r2 =? LIBUSB_SUCCESS), (r3 =? LIBUSB_SUCCESS),
      (r4 =? LIBUSB_SUCCESS); repeat split; repeat constructor. }
  rewrite perform_none by done. eexists _, _. split; [reflexivity|]. repeat split; constructor.
Qed.

(** The calls before the action: claim and reset, then the run goes on if
    the configuration descriptor is delivered and ends with status 1 if
    not. *)
Lemma prepare_calls d h w :
  0 <= descriptor_result d ->
  exists t,
    prepare d h w =
      (if config_descriptor_result d =? 0 then Ret () else Exit 1, w, t) /\
    usb_calls t = [UsbClaimInterface h; UsbResetDevice h] /\ quiet t /\
    open_errors t = [] /\
    (config_descriptor_result d <> 0 ->
     exists t', t = t' ++ [Output stderr MsgConfigDescriptorError]).
Proof.
  intros Hd. unfold prepare, bind, when, printf, fprintf, emit, exit, ret. simpl.
  destruct (Z.ltb_spec (descriptor_result d) 0); [lia|].
  destruct (Z.eqb_spec (config_descriptor_result d) 0); simpl.
  2: { eexists. split; [reflexivity|]. split; [done|]. split; [repeat split|].
       split; [done|]. intros _.
       by exists [UsbClaimInterface h; UsbResetDevice h]. }
  destruct (iManufacturer d =? 0), (iProduct d =? 0); simpl;
    eexists; (split; [reflexivity|]); (split; [done|]); (split; [repeat split|]);
    split; done.
Qed.

(** A run past option parsing and initialisation: the enumeration, then the
    "not found" exit without an open handle, the exit after listing, or the
    session on the selected device. *)
Lemma main_past_init host opts w st :
  parse_options opts initial_options w = (Ret st, w, []) ->
  action st <> zero -> init_result host = 0 -> 0 <= device_list_result host ->
  exists tb,
    usb_calls tb =
      open_call <$> option_list (matches (devices host) !! Z.to_nat (uint8 (device_idx st))) /\
    open_errors tb =
      match matches (devices host) !! Z.to_nat (uint8 (device_idx st)) with
      | Some m => if open_result m.1 <? 0 then [MsgOpenError (open_result m.1)] else []
      | None => []
      end /\
    listing tb =
      (if Ascii.eqb (action st) "l"
       then imap (fun k m => list_entry (Z.of_nat k) m) (matches (devices host))
       else []) /\
    transfers tb = [] /\
    (Ascii.eqb (action st) "l" = false -> printed stdout tb = open_errors tb) /\
    main bulk_out bulk_in host_order host opts w =
      match matches (devices host) !! Z.to_nat (uint8 (device_idx st)) with
      | Some m =>
          if open_result m.1 =? 0 then
            if Ascii.eqb (action st) "l" then (Exit 0, w, tb)
            else
              let '(o, w', t) :=
                bind (prepare m.1 m.1)
                  (fun _ => bind (perform bulk_out bulk_in host_order m.1 st)
                              (fun _ => cleanup m.1)) w in
              (o, w', tb ++ t)
          else (Exit 1, w, tb ++ [Output stderr MsgNotFound])
      | None => (Exit 1, w, tb ++ [Output stderr MsgNotFound])
      end.
Proof.
  intros Hparse Hz Hinit Hlist.
  assert (0 <= uint8 (device_idx st)) as Hidx by (apply Z.mod_pos_bound; lia).
  destruct (browse_devices_spec host (uint8 (device_idx st)) (Ascii.eqb (action st) "l")
              w Hlist Hidx)
    as (tb & ctx & Eb & B1 & B2 & B3 & B4 & B5 & B6 & B7 & Hh & Hd).
  exists tb.
  assert (usb_calls tb =
            open_call <$> option_list (matches (devices host) !! Z.to_nat (uint8 (device_idx st)))
          /\ open_errors tb =
             match matches (devices host) !! Z.to_nat (uint8 (device_idx st)) with
             | Some m => if open_result m.1 <? 0 then [MsgOpenError (open_result m.1)] else []
             | None => []
             end) as [C1 C2].
  { destruct (browse_loop_calls (devices host) (uint8 (device_idx st))
                (Ascii.eqb (action st) "l") 0
                {| device := None; dev_handle := None; ctx_pcan_type := None |} w)
      as (t & ctx' & E & Hc & He).
    rewrite pick_0 in * by done.
    unfold browse_devices in Eb. destruct (Z.ltb_spec (device_list_result host) 0); [lia|].
    unfold bind in Eb. rewrite E in Eb. simpl in Eb. rewrite app_nil_r in Eb.
    injection Eb as <- <-. done. }
  split; [done|]. split; [done|]. split; [done|]. split; [done|].
  split.
  { intros Hf. rewrite Hf in Eb.
    destruct (browse_loop_stdout (devices host) (uint8 (device_idx st)) 0
                {| device := None; dev_handle := None; ctx_pcan_type := None |} w)
      as (t & ctx' & E & Hs).
    unfold browse_devices in Eb. destruct (Z.ltb_spec (device_list_result host) 0); [lia|].
    unfold bind in Eb. rewrite E in Eb. simpl in Eb. rewrite app_nil_r in Eb.
    injection Eb as <- <-. done. }
  unfold main. rewrite (bind_Ret _ _ _ _ _ _ Hparse).
  destruct (Ascii.eqb_spec (action st) zero); [done|].
  rewrite Hinit. change (negb (0 =? 0)) with false. cbv iota.
  rewrite (bind_Ret _ _ _ _ _ _ Eb). cbv beta iota.
  change (negb (0 =? 0)) with false. cbv iota.
  rewrite Hh, Hd.
  destruct (matches (devices host) !! Z.to_nat (uint8 (device_idx st))) as [m|];
    [|reflexivity].
  destruct (open_result m.1 =? 0); [|reflexivity].
  destruct (Ascii.eqb (action st) "l"); [simpl; by rewrite app_nil_r|].
  cbv [fmap option_fmap option_map].
  destruct (bind (prepare m.1 m.1) _ w) as [[o w'] t]. reflexivity.
Qed.
End Shape.

Lemma no_transfers_on_endpoints h t : transfers t = [] -> Forall (on_endpoints h) t.
Proof.
  induction t as [|e t IH]; [done|]. unfold transfers. simpl.
  destruct e; simpl; try done; intros H; constructor; try done; by apply IH.
Qed.

Section Sessions.
Context {device_state : Type}.
Variable bulk_out : usb_device -> Z -> device_state -> packet -> device_state * Z.
Variable bulk_in : usb_device -> Z -> device_state -> device_state * (Z * list Z).
Variable host_order : byte_order.
Implicit Types (w : @world device_state) (s : device_state).

(** The session on the selected device: claim and reset, the action, the
    clean-up; or the exit when the configuration descriptor is not
    delivered. *)
Lemma session_shape d st w :
  options_ok st -> 0 <= descriptor_result d ->
  exists o w' t,
    bind (prepare d d)
      (fun _ => bind (perform bulk_out bulk_in host_order d st) (fun _ => cleanup d)) w
    = (o, w', t) /\
    opened t = [] /\ listing t = [] /\ open_errors t = [] /\
    Forall (on_endpoints d) t /\
    ((config_descriptor_result d <> 0 /\ o = Exit 1 /\ w' = w /\
      usb_calls t = [UsbClaimInterface d; UsbResetDevice d] /\ transfers t = [] /\
      exists t', t = t' ++ [Output stderr MsgConfigDescriptorError]) \/
     (config_descriptor_result d = 0 /\ o = Ret 0 /\
      usb_calls t = [UsbClaimInterface d; UsbResetDevice d] ++ transfers t ++ cleanup_events d /\
      exists tp t2,
        perform bulk_out bulk_in host_order d st w = (Ret (), w', t2) /\
        transfers tp = [] /\ t = tp ++ t2 ++ cleanup_events d)).
Proof.
  intros Hok Hd.
  destruct (prepare_calls d d w Hd) as (tp & Ep & Cp & (P1 & P2 & P3 & P4 & P5 & P6 & P7) & Pe & Hcfg).
  destruct (perform_calls bulk_out bulk_in host_order d st w Hok)
    as (w2 & t2 & E2 & C2 & F2 & O2 & L2 & Oe2).
  unfold bind at 1. rewrite Ep.
  destruct (Z.eqb_spec (config_descriptor_result d) 0) as [Hc|Hc].
  - unfold bind. rewrite E2. simpl.
    eexists _, _, _. split; [reflexivity|].
    autorewrite with events. rewrite P4, P7, Pe, O2, L2, Oe2, Cp, C2, P1.
    split; [done|]. split; [done|]. split; [done|].
    split.
    { rewrite !Forall_app. split; [|split; [done|repeat constructor]].
      by apply no_transfers_on_endpoints. }
    right. split; [done|]. split; [done|].
    split; [simpl; by rewrite app_nil_r|].
    exists tp, t2. done.
  - eexists _, _, _. split; [reflexivity|].
    rewrite P4, P7, Pe, Cp, P1.
    split; [done|]. split; [done|]. split; [done|].
    split; [by apply no_transfers_on_endpoints|].
    left. split; [done|]. split; [done|]. split; [done|]. split; [done|]. split; [done|].
    by apply Hcfg.
Qed.

Lemma parsed_eq opts s st :
  parsed opts s st -> parse_options opts initial_options (start s) = (Ret st, start s, []).
Proof.
  unfold parsed, start. intros Hp.
  destruct (parse_options opts initial_options {| errno := 0; usb := s |})
    as [[o w'] t] eqn:E.
  unfold result in Hp. simpl in Hp. subst o.
  by destruct (parse_options_Ret _ _ _ _ _ _ E) as (-> & -> & _).
Qed.

(** The shapes of a run, by its calls into libusb. *)
Lemma run_shape host opts s :
  let r := run bulk_out bulk_in host_order host opts s in
  (usb_calls (events r) = [] /\ transfers (events r) = [] /\
   (result r = Exit 0 \/ result r = Exit 1)) \/
  (exists d, usb_calls (events r) = [UsbOpen d (open_result d)] /\
             transfers (events r) = [] /\ (result r = Exit 0 \/ result r = Exit 1)) \/
  (exists d, open_result d = 0 /\
             usb_calls (events r) = [UsbOpen d 0; UsbClaimInterface d; UsbResetDevice d] /\
             transfers (events r) = [] /\ result r = Exit 1) \/
  (exists d, open_result d = 0 /\
             usb_calls (events r) =
               [UsbOpen d 0; UsbClaimInterface d; UsbResetDevice d]
                 ++ transfers (events r) ++ cleanup_events d /\
             Forall (on_endpoints d) (events r) /\ result r = Ret 0).
Proof.
  unfold run. cbv zeta.
  destruct (parse_options_spec opts initial_options {| errno := 0; usb := s |})
    as (o & e & t1 & E & (Q1 & _) & Hc & Hok).
  destruct o as [st|c|]; [| |done].
  2: { left. unfold main, bind. rewrite E. unfold events, result. cbn [fst snd].
       split; [|split; [done|]].
       - destruct (parse_options_Exit _ _ _ _ _ _ E) as [[-> ->]|(-> & _ & H)]; [done|].
         by apply on_stderr_calls in H as [? _].
       - destruct (parse_options_Exit _ _ _ _ _ _ E) as [[-> _]|(-> & _)]; auto. }
  specialize (Hok st eq_refl initial_options_ok).
  destruct (parse_options_Ret _ _ _ _ _ _ E) as (Ew & -> & _).
  simpl in Ew. injection Ew as ->. clear Q1.
  set (w := {| errno := 0; usb := s |}) in *.
  destruct (Ascii.eqb_spec (action st) zero) as [Hz|Hz].
  { left. unfold main. rewrite (bind_Ret _ _ _ _ _ _ E).
    destruct (Ascii.eqb_spec (action st) zero); [|done].
    unfold events, result. cbn. auto. }
  destruct (Z.eqb_spec (init_result host) 0) as [Hinit|Hinit].
  2: { left. unfold main. rewrite (bind_Ret _ _ _ _ _ _ E).
       destruct (Ascii.eqb_spec (action st) zero); [done|].
       destruct (Z.eqb_spec (init_result host) 0); [done|].
       unfold events, result. cbn. auto. }
  destruct (Z.ltb_spec (device_list_result host) 0) as [Hlist|Hlist].
  { left. unfold main. rewrite (bind_Ret _ _ _ _ _ _ E).
    destruct (Ascii.eqb_spec (action st) zero); [done|].
    destruct (Z.eqb_spec (init_result host) 0); [|done].
    unfold browse_devices. destruct (Z.ltb_spec (device_list_result host) 0); [|lia].
    unfold events, result. cbn. auto. }
  destruct (main_past_init bulk_out bulk_in host_order host opts w st E Hz Hinit Hlist)
    as (tb & C1 & _ & _ & T1 & _ & ->).
  destruct (matches (devices host) !! Z.to_nat (uint8 (device_idx st))) as [m|] eqn:Hm.
  2: { left. unfold events, result. cbn [fst snd]. autorewrite with events.
       rewrite C1, T1. auto. }
  destruct (Z.eqb_spec (open_result m.1) 0) as [Hopen|Hopen].
  2: { right. left. exists m.1. unfold events, result. cbn [fst snd].
       autorewrite with events. rewrite C1, T1. auto. }
  destruct (Ascii.eqb (action st) "l").
  { right. left. exists m.1. unfold events, result. cbn [fst snd]. rewrite C1, T1. auto. }
  destruct (session_shape m.1 st w Hok (matches_descriptor _ _ _ Hm))
    as (o & w' & t & -> & _ & _ & _ & F & Hcase).
  assert (usb_calls tb = [UsbOpen m.1 0]) as C1'.
  { rewrite C1. simpl. unfold open_call. by rewrite Hopen. }
  right. right. unfold events, result. cbn [fst snd]. autorewrite with events.
  rewrite C1', T1.
  destruct Hcase as [(_ & -> & _ & -> & -> & _)|(_ & -> & -> & _)].
  - left. exists m.1. done.
  - right. exists m.1. split; [done|]. split; [done|]. split; [|done].
    apply Forall_app. split; [by apply no_transfers_on_endpoints|done].
Qed.
End Sessions.

Lemma closed_app t1 t2 : closed (t1 ++ t2) = closed t1 ++ closed t2.
Proof. apply omap_app. Qed.

Lemma opened_usb_calls t : opened (usb_calls t) = opened t.
Proof.
  induction t as [|e t IH]; [done|].
  destruct e; first [exact IH | exact (f_equal (cons _) IH)].
Qed.

Lemma closed_usb_calls t : closed (usb_calls t) = closed t.
Proof.
  induction t as [|e t IH]; [done|].
  destruct e; first [exact IH | exact (f_equal (cons _) IH)].
Qed.

Lemma transfers_not_opened t : opened (transfers t) = [] /\ closed (transfers t) = [].
Proof.
  induction t as [|e t [IH1 IH2]]; [done|].
  destruct e; split; first [exact IH1 | exact IH2].
Qed.

Section RunProperties.
Context {device_state : Type}.
Variable bulk_out : usb_device -> Z -> device_state -> packet -> device_state * Z.
Variable bulk_in : usb_device -> Z -> device_state -> device_state * (Z * list Z).
Variable host_order : byte_order.
Implicit Types (w : @world device_state) (s : device_state).


(** X16. No run reads [device_id] or [serial_nr] before option parsing has
    set it, and none passes a null device on: with the buffer of every
    string descriptor read taken as a string, as the embedding takes it
    (the program ignores the return code of that read), every run ends with
    exit status 0 or 1. *)
Theorem run_exit_status host opts s :
  let r := run bulk_out bulk_in host_order host opts s in
  result r = Ret 0 \/ result r = Exit 0 \/ result r = Exit 1.
Proof.
  destruct (run_shape bulk_out bulk_in host_order host opts s)
    as [(_ & _ & H)|[(d & _ & _ & H)|[(d & _ & _ & _ & H)|(d & _ & _ & _ & H)]]];
    cbv zeta; tauto.
Qed.

(** X15. A run opens at most one device, and it closes the handle exactly
    when it ends by reaching the end of [main]: a run that exits after it has
    opened a device (after listing, on a handle that did not open, without a
    configuration descriptor) leaves the handle open. *)
Theorem handle_closed_at_normal_end host opts s :
  let r := run bulk_out bulk_in host_order host opts s in
  (length (opened (events r)) <= 1)%nat /\
  (result r = Ret 0 -> exists d, opened (events r) = [d] /\ closed (events r) = [d]) /\
  (result r <> Ret 0 -> closed (events r) = []).
Proof.
  cbv zeta.
  rewrite <- (opened_usb_calls (events _)), <- (closed_usb_calls (events _)).
  destruct (run_shape bulk_out bulk_in host_order host opts s)
    as [(-> & _ & H)|[(d & -> & _ & H)|[(d & _ & -> & _ & H)|(d & _ & -> & _ & H)]]].
  - split; [simpl; lia|]. split; [|done]. intros E. rewrite E in H. by destruct H.
  - split; [simpl; lia|]. split; [|done]. intros E. rewrite E in H. by destruct H.
  - split; [simpl; lia|]. split; [|done]. intros E. by rewrite E in H.
  - rewrite !opened_app, !closed_app.
    destruct (transfers_not_opened (events (run bulk_out bulk_in host_order host opts s)))
      as [-> ->].
    split; [simpl; lia|]. split; [|done]. intros _. by exists d.
Qed.

(** X14. Every bulk transfer of a run goes to the one device the run opened:
    outgoing ones on endpoint 0x01, incoming ones on endpoint 0x81. *)
Theorem transfers_on_endpoints host opts s :
  let t := events (run bulk_out bulk_in host_order host opts s) in
  Forall (fun e => exists d, opened t = [d] /\ on_endpoints d e) (transfers t).
Proof.
  cbv zeta.
  destruct (run_shape bulk_out bulk_in host_order host opts s)
    as [(_ & -> & _)|[(d & _ & -> & _)|[(d & _ & _ & -> & _)|(d & _ & Hc & F & _)]]];
    try done.
  assert (opened (events (run bulk_out bulk_in host_order host opts s)) = [d]) as Ho.
  { rewrite <- opened_usb_calls, Hc, !opened_app.
    by destruct (transfers_not_opened (events (run bulk_out bulk_in host_order host opts s)))
      as [-> _]. }
  unfold transfers. apply Forall_forall. intros e He.
  apply list_elem_of_In, List.filter_In in He as [He _]. apply list_elem_of_In in He.
  exists d. split; [done|]. by eapply Forall_forall in F.
Qed.

(** X13. A run that reaches its action on device [d] calls libusb in this
    order: open, claim interface, reset, the transfers of the action, attach
    kernel driver, release interface, close, exit; and it ends with status
    0. *)
Theorem session_order host opts s st d :
  parsed opts s st -> action st <> zero -> action st <> "l"%char ->
  selects host (uint8 (device_idx st)) d ->
  let r := run bulk_out bulk_in host_order host opts s in
  usb_calls (events r) =
    [UsbOpen d 0; UsbClaimInterface d; UsbResetDevice d]
      ++ transfers (events r)
      ++ [UsbAttachKernelDriver d; UsbReleaseInterface d; UsbClose d; UsbExit] /\
  result r = Ret 0.
Proof.
  intros Hp Hz Hl (Hinit & Hlist & Hsel & Hopen & Hcfg). cbv zeta. unfold run.
  pose proof (parsed_eq _ _ _ Hp) as E.
  destruct (parse_options_spec opts initial_options (start s)) as (o & e & t1 & E' & _ & _ & Hok).
  rewrite E in E'. injection E' as <- _ _.
  specialize (Hok st eq_refl initial_options_ok).
  destruct (main_past_init bulk_out bulk_in host_order host opts (start s) st E Hz Hinit Hlist)
    as (tb & C1 & _ & _ & T1 & _ & Hmain).
  change {| errno := 0; usb := s |} with (start s). rewrite Hmain. clear Hmain.
  destruct (matches (devices host) !! Z.to_nat (uint8 (device_idx st))) as [m|] eqn:Hm;
    [|done].
  injection Hsel as <-. change (open_result m.1 =? 0) with (open_result m.1 =? 0).
  assert (usb_calls tb = [UsbOpen m.1 0]) as C1'.
  { rewrite C1. simpl. unfold open_call. by rewrite Hopen. }
  rewrite Hopen. change (0 =? 0) with true. cbv iota.
  destruct (Ascii.eqb_spec (action st) "l"); [done|].
  destruct (session_shape bulk_out bulk_in host_order m.1 st (start s) Hok
              (matches_descriptor _ _ _ Hm))
    as (o & w' & t & -> & _ & _ & _ & _ & [(Hc & _)|(_ & -> & Hc & _)]); [done|].
  unfold events, result. cbn [fst snd]. autorewrite with events.
  rewrite C1', T1, Hc. done.
Qed.

(** X12. A run that reaches its action on device [d] prints on standard
    output, before anything of the action: the manufacturer string and the
    product string of [d], each only if its descriptor index is not zero,
    and a blank line; after that comes what the action prints, and nothing
    else. *)
Theorem descriptor_strings_printed host opts s st d :
  parsed opts s st -> action st <> zero -> action st <> "l"%char ->
  selects host (uint8 (device_idx st)) d ->
  printed stdout (events (run bulk_out bulk_in host_order host opts s)) =
    descriptor_strings d ++
    printed stdout (events (perform bulk_out bulk_in host_order d st (start s))).
Proof.
  intros Hp Hz Hl (Hinit & Hlist & Hsel & Hopen & Hcfg). unfold run.
  pose proof (parsed_eq _ _ _ Hp) as E.
  destruct (parse_options_spec opts initial_options (start s)) as (o & e & t1 & E' & _ & _ & Hok).
  rewrite E in E'. injection E' as <- _ _.
  specialize (Hok st eq_refl initial_options_ok).
  destruct (main_past_init bulk_out bulk_in host_order host opts (start s) st E Hz Hinit Hlist)
    as (tb & _ & O1 & _ & _ & S1 & Hmain).
  change {| errno := 0; usb := s |} with (start s). rewrite Hmain. clear Hmain.
  destruct (matches (devices host) !! Z.to_nat (uint8 (device_idx st))) as [m|] eqn:Hm;
    [|done].
  injection Hsel as <-. rewrite Hopen in *. change (0 =? 0) with true. cbv iota.
  assert (printed stdout tb = []) as S1'.
  { rewrite S1 by (by apply Ascii.eqb_neq). by rewrite O1. }
  destruct (Ascii.eqb_spec (action st) "l"); [done|].
  unfold bind at 1. rewrite (prepare_strings m.1 (start s) (matches_descriptor _ _ _ Hm) Hcfg).
  destruct (perform_calls bulk_out bulk_in host_order m.1 st (start s) Hok)
    as (w2 & t2 & E2 & _).
  unfold bind. rewrite E2. unfold events. cbn [fst snd].
  change (cleanup m.1 w2) with (@Ret Z 0, w2, cleanup_events m.1). cbv beta iota. cbn [snd].
  rewrite !printed_app, printed_stdout_fmap, S1'. simpl. by rewrite app_nil_r.
Qed.

(** X9. Listing: the run prints the line of every catalog match the
    enumeration reaches.  Of the calls the events record (open, claim
    interface, reset, bulk transfer, attach kernel driver, release
    interface, close, exit) it makes one at most, the open of the match at
    the requested index.  It ends with status 0 when that match exists and
    opens, and with status 1 and the "not found" message otherwise, also
    when the listing was printed. *)
Theorem list_mode_status host opts s st :
  parsed opts s st -> action st = "l"%char ->
  init_result host = 0 -> 0 <= device_list_result host ->
  let r := run bulk_out bulk_in host_order host opts s in
  let m := matches (devices host) !! Z.to_nat (uint8 (device_idx st)) in
  listing (events r) =
    imap (fun k m => list_entry (Z.of_nat k) m) (matches (devices host)) /\
  usb_calls (events r) = open_call <$> option_list m /\
  result r =
    match m with
    | Some m => if open_result m.1 =? 0 then Exit 0 else Exit 1
    | None => Exit 1
    end /\
  (result r = Exit 1 -> exists t, events r = t ++ [Output stderr MsgNotFound]).
Proof.
  intros Hp Ha Hinit Hlist. cbv zeta. unfold run.
  pose proof (parsed_eq _ _ _ Hp) as E.
  destruct (main_past_init bulk_out bulk_in host_order host opts (start s) st E
              ltac:(by rewrite Ha) Hinit Hlist)
    as (tb & C1 & _ & L1 & T1 & _ & Hmain).
  change {| errno := 0; usb := s |} with (start s). rewrite Hmain. clear Hmain.
  rewrite Ha in *. change (Ascii.eqb "l" "l") with true in *. cbv iota in *.
  destruct (matches (devices host) !! Z.to_nat (uint8 (device_idx st))) as [m|].
  - destruct (open_result m.1 =? 0); unfold events, result; cbn [fst snd];
      autorewrite with events; rewrite ?C1, ?L1; simpl; rewrite ?app_nil_r;
      repeat split; try done; eauto.
  - unfold events, result; cbn [fst snd].
    autorewrite with events; rewrite ?C1, ?L1; simpl; rewrite ?app_nil_r.
    repeat split; try done; eauto.
Qed.

(** X10. A match that does not open: the run reports the error of
    [libusb_open] on standard output if its code is negative, goes on with
    the enumeration (in list mode every match it reaches is still listed),
    and ends with the "not found" message and status 1.  Of the calls the
    events record, the failed open is the only one: the run does not claim,
    reset, transfer, release or close, and does not call [libusb_exit]. *)
Theorem open_failure host opts s st m :
  parsed opts s st -> action st <> zero ->
  init_result host = 0 -> 0 <= device_list_result host ->
  matches (devices host) !! Z.to_nat (uint8 (device_idx st)) = Some m ->
  open_result m.1 <> 0 ->
  let r := run bulk_out bulk_in host_order host opts s in
  result r = Exit 1 /\
  usb_calls (events r) = [UsbOpen m.1 (open_result m.1)] /\
  open_errors (events r) =
    (if open_result m.1 <? 0 then [MsgOpenError (open_result m.1)] else []) /\
  (exists t, events r = t ++ [Output stderr MsgNotFound]) /\
  (action st = "l"%char ->
   listing (events r) = imap (fun k m => list_entry (Z.of_nat k) m) (matches (devices host))).
Proof.
  intros Hp Hz Hinit Hlist Hm Hopen. cbv zeta. unfold run.
  pose proof (parsed_eq _ _ _ Hp) as E.
  destruct (main_past_init bulk_out bulk_in host_order host opts (start s) st E Hz Hinit Hlist)
    as (tb & C1 & O1 & L1 & T1 & _ & Hmain).
  change {| errno := 0; usb := s |} with (start s). rewrite Hmain. clear Hmain.
  rewrite Hm in *. destruct (Z.eqb_spec (open_result m.1) 0); [done|].
  unfold events, result. cbn [fst snd]. autorewrite with events. rewrite C1, O1, L1.
  simpl. rewrite !app_nil_r. repeat split; eauto.
  intros ->. reflexivity.
Qed.

(** X6. Failures of the host: when libusb does not initialise, or when it
    does not deliver the device list, the run prints the one message on
    standard error and ends with status 1 before it opens anything. *)
Theorem host_failures host opts s st :
  parsed opts s st -> action st <> zero ->
  init_result host <> 0 \/ device_list_result host < 0 ->
  run bulk_out bulk_in host_order host opts s =
    (Exit 1, start s,
     [Output stderr (if init_result host =? 0
                     then MsgDeviceListError (device_list_result host)
                     else MsgInitError)]).
Proof.
  intros Hp Hz Hfail. pose proof (parsed_eq _ _ _ Hp) as E. unfold run.
  change {| errno := 0; usb := s |} with (start s).
  unfold main. rewrite (bind_Ret _ _ _ _ _ _ E).
  destruct (Ascii.eqb_spec (action st) zero); [done|].
  destruct (Z.eqb_spec (init_result host) 0) as [Hinit|Hinit]; [|reflexivity].
  destruct Hfail as [?|Hlist]; [done|]. unfold browse_devices.
  destruct (Z.ltb_spec (device_list_result host) 0); [|lia]. reflexivity.
Qed.

(** X11. Without a configuration descriptor the run ends with its message
    and status 1 after it has opened, claimed and reset the device: it makes
    no transfer, and does not release or close. *)
Theorem config_descriptor_failure host opts s st m :
  parsed opts s st -> action st <> zero -> action st <> "l"%char ->
  init_result host = 0 -> 0 <= device_list_result host ->
  matches (devices host) !! Z.to_nat (uint8 (device_idx st)) = Some m ->
  open_result m.1 = 0 -> config_descriptor_result m.1 <> 0 ->
  let r := run bulk_out bulk_in host_order host opts s in
  result r = Exit 1 /\
  usb_calls (events r) = [UsbOpen m.1 0; UsbClaimInterface m.1; UsbResetDevice m.1] /\
  (exists t, events r = t ++ [Output stderr MsgConfigDescriptorError]).
Proof.
  intros Hp Hz Hl Hinit Hlist Hm Hopen Hcfg. cbv zeta. unfold run.
  pose proof (parsed_eq _ _ _ Hp) as E.
  destruct (parse_options_spec opts initial_options (start s)) as (o & e & t1 & E' & _ & _ & Hok).
  rewrite E in E'. injection E' as <- _ _.
  specialize (Hok st eq_refl initial_options_ok).
  destruct (main_past_init bulk_out bulk_in host_order host opts (start s) st E Hz Hinit Hlist)
    as (tb & C1 & _ & _ & T1 & _ & Hmain).
  change {| errno := 0; usb := s |} with (start s). rewrite Hmain. clear Hmain.
  rewrite Hm in *.
  assert (usb_calls tb = [UsbOpen m.1 0]) as C1'.
  { rewrite C1. simpl. unfold open_call. by rewrite Hopen. }
  rewrite Hopen. change (0 =? 0) with true. cbv iota.
  destruct (Ascii.eqb_spec (action st) "l"); [done|].
  destruct (session_shape bulk_out bulk_in host_order m.1 st (start s) Hok
              (matches_descriptor _ _ _ Hm))
    as (o & w' & t & -> & _ & _ & _ & _ & [(_ & -> & _ & Hc & _ & t' & ->)|(Hc & _)]); [|done].
  unfold events, result. cbn [fst snd]. autorewrite with events in *.
  rewrite C1'.
  split; [done|]. split.
  - by rewrite Hc.
  - exists (tb ++ t'). by rewrite app_assoc.
Qed.

(** X3. The action of a command line is that of its last action option
    (-s, -i, -l, -q), whatever came before it; without -d the device index is
    0; and option parsing that completes has printed nothing. *)
Theorem last_action_wins opts s st :
  parsed opts s st ->
  action st = last_action opts /\
  (Forall (fun o => o.1 <> "d"%char) opts -> device_idx st = 0) /\
  parse_options opts initial_options (start s) = (Ret st, start s, []).
Proof.
  intros Hp. pose proof (parsed_eq _ _ _ Hp) as E.
  destruct (parse_options_Ret _ _ _ _ _ _ E) as (_ & _ & Ha & Hi). done.
Qed.

(** X5. A command line without an action option, if it has no other fault,
    gets the usage text on standard error and exit status 1; libusb is not
    touched. *)
Theorem no_action_usage host opts s st :
  parsed opts s st -> last_action opts = zero ->
  run bulk_out bulk_in host_order host opts s =
    (Exit 1, start s, [Output stderr MsgNoAction; Output stderr MsgHelp]).
Proof.
  intros Hp Hl. pose proof (parsed_eq _ _ _ Hp) as E.
  destruct (parse_options_Ret _ _ _ _ _ _ E) as (_ & _ & Ha & _).
  unfold run. change {| errno := 0; usb := s |} with (start s).
  unfold main. rewrite (bind_Ret _ _ _ _ _ _ E).
  change (action st = last_action opts) in Ha. rewrite Hl in Ha. rewrite Ha. reflexivity.
Qed.

(** X4. Option parsing that stops ends the run before libusb is touched:
    with status 0 and nothing but the help text on standard output when it
    met -h, and with status 1 and messages on standard error only for a bad
    numeric argument, a device id out of range or an unknown option. *)
Theorem option_errors host opts s c :
  result (parse_options opts initial_options (start s)) = Exit c ->
  let r := run bulk_out bulk_in host_order host opts s in
  result r = Exit c /\ usb_calls (events r) = [] /\
  ((c = 0 /\ events r = [Output stdout MsgHelp]) \/
   (c = 1 /\ events r <> [] /\ on_stderr (events r))).
Proof.
  intros Hp. cbv zeta. unfold run. change {| errno := 0; usb := s |} with (start s).
  destruct (parse_options opts initial_options (start s)) as [[o w'] t] eqn:E.
  unfold result in Hp. simpl in Hp. subst o.
  unfold main, bind. rewrite E. unfold events, result. cbn [fst snd].
  split; [done|].
  destruct (parse_options_Exit _ _ _ _ _ _ E) as [[-> ->]|(-> & Hne & H)].
  - split; [done|]. by left.
  - split; [by apply on_stderr_calls in H as [? _]|]. by right.
Qed.
End RunProperties.

(** ** Numeric arguments *)

Lemma leb_digit c :
  Ascii.leb "0" c && Ascii.leb c "9" = true -> exists d, 0 <= d < 10 /\ c = digit_char d.
Proof.
  destruct c as [[] [] [] [] [] [] [] []]; simpl; try discriminate; intros _;
    first [ by exists 0 | by exists 1 | by exists 2 | by exists 3 | by exists 4
          | by exists 5 | by exists 6 | by exists 7 | by exists 8 | by exists 9 ].
Qed.

Section Arguments.
Context {device_state : Type}.
Variable bulk_out : usb_device -> Z -> device_state -> packet -> device_state * Z.
Variable bulk_in : usb_device -> Z -> device_state -> device_state * (Z * list Z).
Variable host_order : byte_order.
Implicit Types (w : @world device_state) (s : device_state).

(** X1. Numeric arguments.  A decimal numeral and a hexadecimal numeral
    after [0x] are read up to the first character that is no digit of the
    base, and what follows is ignored; the value is taken modulo 2^32, and a
    value above [LLONG_MAX] is a range error.  [0x] without a hexadecimal
    digit is 0.  An argument that does not start with a decimal digit (an
    empty one, one with a sign or a blank) is rejected. *)
Theorem numeric_arguments w :
  errno w = 0 ->
  (forall ds rest,
     ds <> [] -> Forall (fun d => 0 <= d < 10) ds -> stops 10 rest ->
     (ds = [0] -> forall r, rest <> String "x" r) ->
     parse_long (numeral digit_char ds rest) w = numeral_result (digits_value 10 ds) w) /\
  (forall (ds : list (bool * Z)) rest,
     Forall (fun h => 0 <= h.2 < 16) ds -> stops 16 rest ->
     parse_long (String "0" (String "x" (numeral hex_char ds rest))) w =
       numeral_result (digits_value 16 (snd <$> ds)) w) /\
  (forall arg,
     ~ starts_with_digit arg ->
     parse_long arg w = (Ret None, w, [Output stderr (MsgInvalidArgument arg)])).
Proof.
  intros He. split; [|split].
  - intros ds rest. by apply parse_long_decimal.
  - intros ds rest. by apply parse_long_hexadecimal.
  - intros arg Hn. unfold parse_long.
    destruct (_ && _) eqn:Hd; [|reflexivity].
    exfalso. apply Hn. destruct arg as [|c r]; [done|].
    apply leb_digit in Hd as (d & Hd & ->). by exists d, r.
Qed.

(** X2. The bound of -i is checked on the value reduced modulo 2^32: a
    decimal numeral of value [v] up to [LLONG_MAX] sets the device id
    [v mod 2^32] when that is below 255, 4294967296 as well as 0, and is
    rejected otherwise. *)
Theorem device_id_wraps ds rest st w :
  errno w = 0 -> ds <> [] -> Forall (fun d => 0 <= d < 10) ds ->
  digits_value 10 ds <= LLONG_MAX ->
  let v := digits_value 10 ds mod 2 ^ 32 in
  parse_options (opt "i" (numeral digit_char ds "") :: rest) st w =
    if v <? 255
    then parse_options rest
           {| device_idx := device_idx st; device_id := Some v;
              serial_nr := serial_nr st; action := "i" |} w
    else (Exit 1, w, [Output stderr (MsgInvalidDeviceId v 255)]).
Proof.
  intros He Hne Hds Hv. cbv zeta.
  assert (parse_long (numeral digit_char ds "") w
          = (Ret (Some (digits_value 10 ds mod 2 ^ 32)), w, [])) as E.
  { rewrite parse_long_decimal by done.
    destruct (Z.leb_spec (digits_value 10 ds) LLONG_MAX); [done|lia]. }
  pose proof (Z.mod_pos_bound (digits_value 10 ds) (2 ^ 32) ltac:(lia)) as Hb.
  unfold opt. cbn [parse_options]. cbv [Ascii.eqb Bool.eqb]. cbv iota.
  rewrite (bind_Ret _ _ _ _ _ _ E). unfold UCHAR_MAX.
  destruct (Z.leb_spec 255 (digits_value 10 ds mod 2 ^ 32)),
    (Z.ltb_spec (digits_value 10 ds mod 2 ^ 32) 255); try lia; [reflexivity|].
  unfold uint8. rewrite (Z.mod_small _ (2 ^ 8)) by lia.
  destruct (parse_options rest _ _) as [[? ?] ?]. reflexivity.
Qed.
End Arguments.

(** ** Responses *)

Lemma octet_mod_2_32 k v : 0 <= k < 4 -> octet k (v mod 2 ^ 32) = octet k v.
Proof.
  intros Hk. apply Z.bits_inj'. intros n Hn. rewrite !octet_spec by lia.
  destruct (Z.ltb_spec n 8); [|by rewrite !andb_false_r].
  rewrite Z.mod_pow2_bits_low by lia. reflexivity.
Qed.

Lemma received_lookup (buf : packet) rx (k : nat) :
  (k < length buf)%nat ->
  received buf rx !!! k = match rx !! k with Some b => uint8 b | None => buf !!! k end.
Proof.
  intros Hk. unfold received.
  destruct (rx !! k) as [b|] eqn:E.
  - pose proof (lookup_lt_Some _ _ _ E) as Hlt.
    apply list_lookup_total_correct.
    rewrite list_lookup_inserts.
    + rewrite Nat.sub_0_r, lookup_take_lt by done. by rewrite list_lookup_fmap, E.
    + rewrite length_take, length_fmap. lia.
    + done.
  - apply lookup_ge_None in E. apply list_lookup_total_correct.
    rewrite list_lookup_inserts_ge.
    + by apply list_lookup_lookup_total_lt.
    + rewrite length_take, length_fmap. lia.
Qed.

Section Wire.
Context {device_state : Type}.
Variable bulk_out : usb_device -> Z -> device_state -> packet -> device_state * Z.
Variable bulk_in : usb_device -> Z -> device_state -> device_state * (Z * list Z).
Variable host_order : byte_order.
Implicit Types (w : @world device_state) (s : device_state).

(** X17. What the query reads out of a response: the device id is byte 2 of
    the bytes received and the serial number the little-endian value of
    bytes 2 to 5, each taken as zero when the response is too short to hold
    it (the request packet is zero there); with at most two bytes received,
    as after a failed transfer, both values are 0. *)
Theorem short_response_reads_zero (rx : list Z) :
  device_id_of_pkt (received get_device_id_pkt rx) = response_byte rx 2 /\
  serial_nr_of_pkt host_order (received get_serial_nr_pkt rx) =
    le32 (response_byte rx 2) (response_byte rx 3) (response_byte rx 4) (response_byte rx 5) /\
  ((length rx <= 2)%nat ->
   device_id_of_pkt (received get_device_id_pkt rx) = 0 /\
   serial_nr_of_pkt host_order (received get_serial_nr_pkt rx) = 0).
Proof.
  assert (device_id_of_pkt (received get_device_id_pkt rx) = response_byte rx 2) as H1.
  { unfold device_id_of_pkt, response_byte. rewrite received_lookup by (simpl; lia).
    by destruct (rx !! 2%nat). }
  assert (serial_nr_of_pkt host_order (received get_serial_nr_pkt rx) =
          le32 (response_byte rx 2) (response_byte rx 3) (response_byte rx 4)
               (response_byte rx 5)) as H2.
  { rewrite serial_nr_of_pkt_le32.
    - unfold response_byte. rewrite !received_lookup by (simpl; lia).
      by destruct (rx !! 2%nat), (rx !! 3%nat), (rx !! 4%nat), (rx !! 5%nat).
    - rewrite length_received. simpl. lia.
    - apply received_is_byte, get_pkts_is_byte. }
  split; [done|]. split; [done|]. intros Hlen. rewrite H1, H2. unfold response_byte.
  rewrite !(proj2 (lookup_ge_None _ _)) by lia. done.
Qed.

(** X18. From the command line to the wire: for a decimal numeral of value
    [v] up to [LLONG_MAX] as the argument of -s, the one packet of the run
    carries the four low bytes of [v], least significant first, on a host of
    either byte order. *)
Theorem serial_numeral_on_the_wire host s ds d :
  ds <> [] -> Forall (fun d => 0 <= d < 10) ds -> digits_value 10 ds <= LLONG_MAX ->
  selects host 0 d ->
  let v := digits_value 10 ds in
  exists r,
    transfers (events (run bulk_out bulk_in host_order host
                         [opt "s" (numeral digit_char ds "")] s)) =
      [BulkOut d 0x1 ([6; 2; octet 0 v; octet 1 v; octet 2 v; octet 3 v] ++ replicate 10 0) r].
Proof.
  intros Hne Hds Hv Hsel. cbv zeta.
  set (st := {| device_idx := 0; device_id := None;
                serial_nr := Some (digits_value 10 ds mod 2 ^ 32); action := "s" |}).
  assert (parsed [opt "s" (numeral digit_char ds "")] s st) as Hp.
  { unfold parsed, opt. cbn [parse_options]. cbv [Ascii.eqb Bool.eqb]. cbv iota.
    assert (parse_long (numeral digit_char ds "") {| errno := 0; usb := s |}
            = (Ret (Some (digits_value 10 ds mod 2 ^ 32)), {| errno := 0; usb := s |}, [])) as E.
    { rewrite parse_long_decimal by done.
      destruct (Z.leb_spec (digits_value 10 ds) LLONG_MAX); [done|lia]. }
    rewrite (bind_Ret _ _ _ _ _ _ E). reflexivity. }
  destruct (run_selected bulk_out bulk_in host_order host _ s st d Hp)
    as (_ & pre & w1 & (T1 & _) & ->); [done..|].
  destruct (perform_s bulk_out bulk_in host_order d st w1 _ eq_refl eq_refl) as (r & s' & ->).
  exists r. cbv beta iota. unfold events. cbn [snd]. autorewrite with events. rewrite T1.
  destruct (reported_quiet r) as (-> & _).
  rewrite set_serial_nr_pkt_eq, !octet_mod_2_32 by lia. reflexivity.
Qed.
End Wire.

(** ** The enumeration *)

Lemma without_listing_app t1 t2 :
  without_listing (t1 ++ t2) = without_listing t1 ++ without_listing t2.
Proof. apply List.filter_app. Qed.

Section EnumerationEnds.
Context {device_state : Type}.
Implicit Types (w : @world device_state).

Lemma browse_loop_stop pre bad post idx l i ctx w :
  Forall (fun d => 0 <= descriptor_result d) pre -> descriptor_result bad < 0 ->
  browse_loop (pre ++ bad :: post) idx l i ctx w =
    (let '(o, w', t) := browse_loop pre idx l i ctx w in
     (o, w', t ++ [Output stderr (MsgDescriptorError (descriptor_result bad))])).
Proof.
  intros Hpre Hbad. revert i ctx.
  induction Hpre as [|d rest Hd _ IH]; intros i ctx.
  - simpl. destruct (Z.ltb_spec (descriptor_result bad) 0); [|lia]. reflexivity.
  - simpl. destruct (Z.ltb_spec (descriptor_result d) 0); [lia|].
    destruct (supported d) as [p|]; [|apply IH].
    unfold bind, when, printf, fprintf, emit, libusb_open, ret. simpl.
    destruct l, (i =? idx), (open_result d <? 0); simpl; rewrite IH;
      destruct (browse_loop rest _ _ _ _ _) as [[o w'] t]; simpl;
      rewrite ?app_assoc; reflexivity.
Qed.

(** X7. The enumeration ends at the first device whose descriptor cannot be
    read: it prints the one error line, and the devices after it are as if
    they were not attached, neither listed nor selected. *)
Theorem enumeration_stops_at_unreadable_descriptor host pre bad post idx l w :
  devices host = pre ++ bad :: post ->
  Forall (fun d => 0 <= descriptor_result d) pre -> descriptor_result bad < 0 ->
  0 <= device_list_result host ->
  matches (devices host) = matches pre /\
  browse_devices host idx l w =
    (let '(o, w', t) :=
       browse_devices {| init_result := init_result host;
                         device_list_result := device_list_result host;
                         devices := pre |} idx l w in
     (o, w', t ++ [Output stderr (MsgDescriptorError (descriptor_result bad))])).
Proof.
  intros Hdevs Hpre Hbad Hlist. split.
  - rewrite Hdevs. unfold matches. f_equal. clear -Hpre Hbad.
    induction Hpre as [|d rest Hd _ IH]; simpl.
    + destruct (Z.ltb_spec (descriptor_result bad) 0); [done|lia].
    + destruct (Z.ltb_spec (descriptor_result d) 0); [lia|]. by rewrite IH.
  - unfold browse_devices. simpl.
    destruct (Z.ltb_spec (device_list_result host) 0); [lia|].
    rewrite Hdevs. unfold bind. rewrite browse_loop_stop by done.
    destruct (browse_loop pre _ _ _ _ _) as [[o w'] t]. destruct o; simpl;
      rewrite ?app_nil_r; reflexivity.
Qed.

Lemma browse_loop_list_flag devs idx i ctx w :
  exists ctx' t1 t0,
    browse_loop devs idx true i ctx w = (Ret ctx', w, t1) /\
    browse_loop devs idx false i ctx w = (Ret ctx', w, t0) /\
    t0 = without_listing t1.
Proof.
  revert i ctx. induction devs as [|d rest IH]; intros i ctx.
  - by exists ctx, [], [].
  - simpl. destruct (descriptor_result d <? 0).
    { eexists _, _, _. split; [reflexivity|]. split; reflexivity. }
    destruct (supported d) as [p|]; [|apply IH].
    unfold bind, when, printf, fprintf, emit, libusb_open, ret. simpl.
    destruct (i =? idx), (open_result d <? 0); simpl;
      match goal with
      | |- context [browse_loop rest idx true ?j ?c w] =>
          destruct (IH j c) as (ctx' & t1 & t0 & -> & -> & ->)
      end; eexists _, _, _; (split; [reflexivity|]); split; reflexivity.
Qed.

(** X8. The list flag adds the lines of the listing and changes nothing
    else: the enumeration returns the same selection and makes the same
    calls and prints the same messages with and without it. *)
Theorem list_flag_only_prints host idx w :
  result (browse_devices host idx true w) = result (browse_devices host idx false w) /\
  events (browse_devices host idx false w) =
    without_listing (events (browse_devices host idx true w)) /\
  listing (events (browse_devices host idx false w)) = [].
Proof.
  unfold browse_devices. destruct (device_list_result host <? 0); [done|].
  destruct (browse_loop_list_flag (devices host) idx 0
              {| device := None; dev_handle := None; ctx_pcan_type := None |} w)
    as (ctx' & t1 & t0 & E1 & E0 & ->).
  destruct (browse_loop_spec (devices host) idx false 0
              {| device := None; dev_handle := None; ctx_pcan_type := None |} w)
    as (t & ctx & E & Hl & _).
  rewrite E0 in E. injection E as <- <-.
  unfold bind. rewrite E1, E0. unfold result, events. cbn [fst snd].
  simpl. rewrite ?app_nil_r. done.
Qed.
End EnumerationEnds.

(** ** Concrete runs of the further properties *)


Lemma numeric_arguments_examples :
  parse_long "12abc" (start sim_start) = (Ret (Some 12), start sim_start, []) /\
  parse_long "0xFfz" (start sim_start) = (Ret (Some 255), start sim_start, []) /\
  parse_long "0x" (start sim_start) = (Ret (Some 0), start sim_start, []) /\
  parse_long "-1" (start sim_start) =
    (Ret None, start sim_start, [Output stderr (MsgInvalidArgument "-1")]).
Proof.
  destruct (numeric_arguments (start sim_start) eq_refl) as (Hdec & Hhex & Hinv).
  split; [|split; [|split]].
  - apply (Hdec [1; 2] "abc").
    + discriminate.
    + repeat constructor; lia.
    + simpl. lia.
    + discriminate.
  - apply (Hhex [(true, 15); (false, 15)] "z").
    + repeat constructor; simpl; lia.
    + simpl. lia.
  - apply (Hhex [] "").
    + constructor.
    + exact I.
  - apply (Hinv "-1"). intros (d & r & Hd & H). injection H as H _.
    assert (d = 0 \/ d = 1 \/ d = 2 \/ d = 3 \/ d = 4 \/ d = 5 \/ d = 6 \/ d = 7 \/ d = 8 \/
            d = 9) as Hcase by lia.
    repeat destruct Hcase as [->|Hcase]; try subst d; discriminate.
Defined.

Lemma device_id_4294967296_accepted :
  parse_options [opt "i" "4294967296"] initial_options (start sim_start) =
    (Ret {| device_idx := 0; device_id := Some 0; serial_nr := None; action := "i" |},
     start sim_start, []).
Proof.
  apply (device_id_wraps [4; 2; 9; 4; 9; 6; 7; 2; 9; 6] [] initial_options (start sim_start)).
  - reflexivity.
  - discriminate.
  - repeat constructor; lia.
  - vm_compute. discriminate.
Defined.

Lemma last_of_three_actions :
  action {| device_idx := 0; device_id := Some 5; serial_nr := None; action := "l" |} =
    last_action [opt "q" ""; opt "i" "5"; opt "l" ""] /\
  (Forall (fun o => o.1 <> "d"%char) [opt "q" ""; opt "i" "5"; opt "l" ""] ->
   device_idx {| device_idx := 0; device_id := Some 5; serial_nr := None; action := "l" |} = 0) /\
  parse_options [opt "q" ""; opt "i" "5"; opt "l" ""] initial_options (start sim_start) =
    (Ret {| device_idx := 0; device_id := Some 5; serial_nr := None; action := "l" |},
     start sim_start, []).
Proof.
  apply (last_action_wins [opt "q" ""; opt "i" "5"; opt "l" ""] sim_start). reflexivity.
Defined.

Lemma bad_serial_number_argument :
  result (run sim_out sim_in LittleEndian one_pcan [opt "q" ""; opt "s" "-1"] sim_start)
    = Exit 1 /\
  usb_calls (events (run sim_out sim_in LittleEndian one_pcan [opt "q" ""; opt "s" "-1"]
                       sim_start)) = [] /\
  ((1 = 0 /\
    events (run sim_out sim_in LittleEndian one_pcan [opt "q" ""; opt "s" "-1"] sim_start)
      = [Output stdout MsgHelp]) \/
   (1 = 1 /\
    events (run sim_out sim_in LittleEndian one_pcan [opt "q" ""; opt "s" "-1"] sim_start)
      <> [] /\
    on_stderr (events (run sim_out sim_in LittleEndian one_pcan [opt "q" ""; opt "s" "-1"]
                         sim_start)))).
Proof.
  apply (option_errors sim_out sim_in LittleEndian one_pcan [opt "q" ""; opt "s" "-1"]
           sim_start 1).
  reflexivity.
Defined.

Lemma device_index_only :
  run sim_out sim_in LittleEndian one_pcan [opt "d" "1"] sim_start =
    (Exit 1, start sim_start, [Output stderr MsgNoAction; Output stderr MsgHelp]).
Proof.
  apply (no_action_usage sim_out sim_in LittleEndian one_pcan [opt "d" "1"] sim_start
           {| device_idx := 1; device_id := None; serial_nr := None; action := zero |}).
  - reflexivity.
  - reflexivity.
Defined.

Lemma query_without_libusb :
  run sim_out sim_in LittleEndian no_libusb [opt "q" ""] sim_start =
    (Exit 1, start sim_start, [Output stderr MsgInitError]).
Proof.
  apply (host_failures sim_out sim_in LittleEndian no_libusb [opt "q" ""] sim_start
           query_options).
  - reflexivity.
  - discriminate.
  - left. discriminate.
Defined.

Lemma unreadable_host_enumeration :
  matches (devices unreadable_host) = matches [pcan_usb 1 5] /\
  browse_devices unreadable_host 1 true (start sim_start) =
    (let '(o, w', t) :=
       browse_devices {| init_result := 0; device_list_result := 3;
                         devices := [pcan_usb 1 5] |} 1 true (start sim_start) in
     (o, w', t ++ [Output stderr (MsgDescriptorError (-1))])).
Proof.
  apply (enumeration_stops_at_unreadable_descriptor unreadable_host
           [pcan_usb 1 5] unreadable_device [pcan_usb 2 7] 1 true (start sim_start)).
  - reflexivity.
  - repeat constructor. simpl. lia.
  - simpl. lia.
  - simpl. lia.
Defined.

Lemma list_two_pcan_index_5 :
  listing (events (run sim_out sim_in LittleEndian two_pcan [opt "l" ""; opt "d" "5"]
                     sim_start)) =
    [MsgListEntry 0 0x0c72 0x000c 1 5 "PCAN-USB"; MsgListEntry 1 0x0c72 0x000c 2 7 "PCAN-USB"] /\
  usb_calls (events (run sim_out sim_in LittleEndian two_pcan [opt "l" ""; opt "d" "5"]
                       sim_start)) = [] /\
  result (run sim_out sim_in LittleEndian two_pcan [opt "l" ""; opt "d" "5"] sim_start)
    = Exit 1 /\
  (result (run sim_out sim_in LittleEndian two_pcan [opt "l" ""; opt "d" "5"] sim_start)
     = Exit 1 ->
   exists t, events (run sim_out sim_in LittleEndian two_pcan [opt "l" ""; opt "d" "5"]
                       sim_start) = t ++ [Output stderr MsgNotFound]).
Proof.
  apply (list_mode_status sim_out sim_in LittleEndian two_pcan [opt "l" ""; opt "d" "5"]
           sim_start
           {| device_idx := 5; device_id := None; serial_nr := None; action := "l" |}).
  - reflexivity.
  - reflexivity.
  - reflexivity.
  - simpl. lia.
Defined.

Lemma busy_device_query :
  result (run sim_out sim_in LittleEndian busy_host [opt "q" ""] sim_start) = Exit 1 /\
  usb_calls (events (run sim_out sim_in LittleEndian busy_host [opt "q" ""] sim_start))
    = [UsbOpen busy_pcan (-3)] /\
  open_errors (events (run sim_out sim_in LittleEndian busy_host [opt "q" ""] sim_start))
    = [MsgOpenError (-3)] /\
  (exists t, events (run sim_out sim_in LittleEndian busy_host [opt "q" ""] sim_start)
             = t ++ [Output stderr MsgNotFound]) /\
  (action query_options = "l"%char ->
   listing (events (run sim_out sim_in LittleEndian busy_host [opt "q" ""] sim_start)) =
     imap (fun k m => list_entry (Z.of_nat k) m) (matches (devices busy_host))).
Proof.
  apply (open_failure sim_out sim_in LittleEndian busy_host [opt "q" ""] sim_start
           query_options (busy_pcan, pcan_usb_type)).
  - reflexivity.
  - discriminate.
  - reflexivity.
  - simpl. lia.
  - reflexivity.
  - simpl. lia.
Defined.

Lemma unconfigured_device_query :
  result (run sim_out sim_in LittleEndian unconfigured_host [opt "q" ""] sim_start) = Exit 1 /\
  usb_calls (events (run sim_out sim_in LittleEndian unconfigured_host [opt "q" ""] sim_start))
    = [UsbOpen unconfigured_pcan 0; UsbClaimInterface unconfigured_pcan;
       UsbResetDevice unconfigured_pcan] /\
  (exists t, events (run sim_out sim_in LittleEndian unconfigured_host [opt "q" ""] sim_start)
             = t ++ [Output stderr MsgConfigDescriptorError]).
Proof.
  apply (config_descriptor_failure sim_out sim_in LittleEndian unconfigured_host
           [opt "q" ""] sim_start query_options (unconfigured_pcan, pcan_usb_type)).
  - reflexivity.
  - discriminate.
  - discriminate.
  - reflexivity.
  - simpl. lia.
  - reflexivity.
  - reflexivity.
  - simpl. lia.
Defined.

Lemma descriptor_strings_simulated :
  printed stdout (events (run sim_out sim_in LittleEndian one_pcan [opt "i" "0x2b"] sim_start)) =
    descriptor_strings (pcan_usb 1 5) ++
    printed stdout (events (perform sim_out sim_in LittleEndian (pcan_usb 1 5) set_id_options
                              (start sim_start))).
Proof.
  apply (descriptor_strings_printed sim_out sim_in LittleEndian one_pcan [opt "i" "0x2b"]
           sim_start set_id_options (pcan_usb 1 5)).
  - reflexivity.
  - discriminate.
  - discriminate.
  - exact selects_one_pcan.
Defined.

Lemma session_order_simulated :
  usb_calls (events (run sim_out sim_in BigEndian one_pcan [opt "q" ""] sim_start)) =
    [UsbOpen (pcan_usb 1 5) 0; UsbClaimInterface (pcan_usb 1 5); UsbResetDevice (pcan_usb 1 5)]
      ++ transfers (events (run sim_out sim_in BigEndian one_pcan [opt "q" ""] sim_start))
      ++ [UsbAttachKernelDriver (pcan_usb 1 5); UsbReleaseInterface (pcan_usb 1 5);
          UsbClose (pcan_usb 1 5); UsbExit] /\
  result (run sim_out sim_in BigEndian one_pcan [opt "q" ""] sim_start) = Ret 0.
Proof.
  apply (session_order sim_out sim_in BigEndian one_pcan [opt "q" ""] sim_start
           query_options (pcan_usb 1 5)).
  - reflexivity.
  - discriminate.
  - discriminate.
  - exact selects_one_pcan.
Defined.

Lemma serial_16909060_on_the_wire :
  exists r,
    transfers (events (run sim_out sim_in BigEndian one_pcan [opt "s" "16909060"] sim_start)) =
      [BulkOut (pcan_usb 1 5) 0x1 ([6; 2; 0x04; 0x03; 0x02; 0x01] ++ replicate 10 0) r].
Proof.
  apply (serial_numeral_on_the_wire sim_out sim_in BigEndian one_pcan sim_start
           [1; 6; 9; 0; 9; 0; 6; 0] (pcan_usb 1 5)).
  - discriminate.
  - repeat constructor; lia.
  - vm_compute. discriminate.
  - exact selects_one_pcan.
Defined.

(** The runs above, computed. *)
Example failing_hosts_output :
  events (run sim_out sim_in LittleEndian busy_host [opt "q" ""] sim_start) =
    [UsbOpen busy_pcan (-3); Output stdout (MsgOpenError (-3)); Output stderr MsgNotFound] /\
  events (run sim_out sim_in LittleEndian unreadable_host [opt "l" ""; opt "d" "1"] sim_start) =
    [Output stdout (MsgListEntry 0 0x0c72 0x000c 1 5 "PCAN-USB");
     Output stderr (MsgDescriptorError (-1)); Output stderr MsgNotFound] /\
  run sim_out sim_in LittleEndian one_pcan [opt "h" ""; opt "x" ""] sim_start =
    (Exit 0, start sim_start, [Output stdout MsgHelp]).
Proof. repeat split. Qed.
